(** * time-monitor: the display loop and its lifecycle controller

    A shallow embedding of [src/time_monitor/cli.py]: the [TimeMonitor]
    class (signal handler, curses set-up and tear-down, the timestamp
    formatter, the per-frame loop of [run]) and the [main] command.

    The terminal library, the clock, the sleep and the delivery of signals
    are the environment of the program.  They are modelled by an oracle
    ([Env]) that answers every external call, may make any curses call or
    the sleep raise any exception, and may deliver a termination signal at
    any call boundary.  Every call the program makes, every log record and
    every write of [self.running] is recorded in a trace of events. *)

From Stdlib Require Import ZArith NArith List String Ascii Bool Lia Floats.
Import ListNotations.

Local Open Scope string_scope.
Local Open Scope list_scope.
Local Open Scope Z_scope.

(** ** Data *)

(** [curses.window] objects are opaque handles. *)
Inductive window : Type := Window (id : nat).

(** What [datetime.now(tz)] returns: the broken-down fields of an aware
    [datetime]. *)
Record datetime : Type := Datetime {
  year : N; month : N; day : N;
  hour : N; minute : N; second : N;
  microsecond : N
}.

(** The ranges the [datetime] class guarantees for its fields
    ([MINYEAR = 1], [MAXYEAR = 9999]). *)
Definition valid_datetime (d : datetime) : bool :=
  ((1 <=? year d) && (year d <=? 9999) &&
   (1 <=? month d) && (month d <=? 12) &&
   (1 <=? day d) && (day d <=? 31) &&
   (hour d <=? 23) && (minute d <=? 59) && (second d <=? 59) &&
   (microsecond d <=? 999999))%N.

Inductive tzinfo : Type := timezone_utc.

(** The exceptions that travel through the program.  [KeyboardInterrupt]
    and [SystemExit] derive from [BaseException] only; the others derive
    from [Exception]. *)
Inductive exn : Type :=
| KeyboardInterrupt
| SystemExit (code : Z)
| RuntimeError (msg : string)
| curses_error (msg : string)
| OtherException (cls msg : string).

Definition is_KeyboardInterrupt (e : exn) : bool :=
  match e with KeyboardInterrupt => true | _ => false end.

(** [isinstance(e, Exception)] *)
Definition is_Exception (e : exn) : bool :=
  match e with
  | KeyboardInterrupt | SystemExit _ => false
  | RuntimeError _ | curses_error _ | OtherException _ _ => true
  end.

(** [str(e)] *)
Definition exn_str (e : exn) : string :=
  match e with
  | KeyboardInterrupt => ""
  | SystemExit c => ""
  | RuntimeError m | curses_error m | OtherException _ m => m
  end.

(** The object state of a [TimeMonitor] ([__init__], lines 25-27). *)
Record TimeMonitor : Type := Monitor {
  update_interval : float;
  running : bool;
  stdscr : option window
}.

(** ** Events *)

(** The external calls of the program, with their arguments. *)
Inductive call : Type :=
| curses_initscr
| curses_noecho
| curses_cbreak
| curses_curs_set (visibility : Z)
| curses_nocbreak
| curses_echo
| curses_endwin
| win_keypad (w : window) (flag : bool)
| win_nodelay (w : window) (flag : bool)
| win_getch (w : window)
| win_clear (w : window)
| win_getmaxyx (w : window)
| win_addstr (w : window) (y x : Z) (text : string)
| win_refresh (w : window)
| time_sleep (secs : float)
| datetime_now (tz : tzinfo).

Inductive value : Type :=
| VNone
| VInt (z : Z)
| VPair (a b : Z)
| VWindow (w : option window)
| VDatetime (d : datetime).

Inductive outcome : Type :=
| Returned (v : value)
| Raised (e : exn).

Inductive level : Type := DEBUG | INFO | WARNING | ERROR.

(** The log records of the module, one constructor per [logger] call. *)
Inductive logmsg : Type :=
| MsgInitialized (interval : float)          (* line 28 *)
| MsgReceivedSignal (signum : Z)             (* line 34 *)
| MsgInitCurses                              (* line 42 *)
| MsgInitFailed                              (* line 46 *)
| MsgCleanup                                 (* line 56 *)
| MsgStartLoop                               (* line 74 *)
| MsgUserQuit                                (* line 86 *)
| MsgStdscrNone                              (* line 106 *)
| MsgKeyboardInterrupt                       (* line 113 *)
| MsgUnexpected (e : exn)                    (* line 115 *)
| MsgShutdownComplete                        (* line 120 *)
| MsgStartCLI (interval : float) (verbose : bool)  (* line 147 *)
| MsgInvalidInterval (interval : float)      (* line 151 *)
| MsgSmallInterval (interval : float)        (* line 156 *)
| MsgFailedToRun (e : exn).                  (* line 162 *)

Inductive event : Type :=
| Ev (c : call) (o : outcome)            (* an external call and how it ended *)
| Log (l : level) (m : logmsg)           (* a record handed to [logger] *)
| SetRunning (b : bool)                  (* an assignment to [self.running] *)
| SetStdscr (w : option window)          (* an assignment to [self.stdscr] *)
| Register (signum : Z)                  (* [signal.signal(signum, signal_handler)] *)
| BasicConfig (l : level) (to_stderr : bool)   (* [logging.basicConfig] *)
| EchoErr (text : string).               (* [click.echo(text, err=True)] *)

Definition trace : Type := list event.

(** ** The environment *)

(** The signals for which [setup_signal_handlers] registers the handler
    (lines 37-38), and their numbers. *)
Inductive termination : Type := Interrupt | Terminate.

Definition SIGINT : Z := 2.
Definition SIGTERM : Z := 15.

Definition signum_of (s : termination) : Z :=
  match s with
  | Interrupt => SIGINT
  | Terminate => SIGTERM
  end.

(** Every external call and every logger call is a point where a pending
    signal is handled; points are numbered by [w_clock].  At point [n] the
    oracle says whether a termination signal arrives ([env_signal]),
    whether the call raises ([env_fault], consulted for the curses calls and
    the sleep) and what the call returns.  A [KeyboardInterrupt] raised by
    the default disposition of [SIGINT] is one of the exceptions
    [env_fault] can raise. *)
Record Env : Type := {
  env_signal : nat -> option termination;
  env_fault : nat -> option exn;
  env_initscr : nat -> option window;
  env_getch : nat -> Z;
  env_getmaxyx : nat -> Z * Z;
  env_now : nat -> tzinfo -> datetime
}.

(** The state of the process: the monitor object, whether the monitor's
    [signal_handler] is the registered disposition, and the clock of the
    environment. *)
Record World : Type := {
  w_mon : TimeMonitor;
  w_handler : bool;
  w_clock : nat
}.

(** ** A monad of state, exceptions and emitted events *)

Inductive Res (A : Type) : Type :=
| Ok (a : A)
| Raise (e : exn).
Arguments Ok {A} a.
Arguments Raise {A} e.

Record Out (A : Type) : Type := mkOut {
  res : Res A;
  post : World;
  evs : trace
}.
Arguments mkOut {A} res post evs.
Arguments res {A} o.
Arguments post {A} o.
Arguments evs {A} o.

Definition M (A : Type) : Type := World -> Out A.

Definition ret {A} (a : A) : M A := fun w => mkOut (Ok a) w [].

Definition raise {A} (e : exn) : M A := fun w => mkOut (Raise e) w [].

Definition bind {A B} (c : M A) (k : A -> M B) : M B := fun w =>
  let o := c w in
  match res o with
  | Ok a => let o' := k a (post o) in mkOut (res o') (post o') (evs o ++ evs o')
  | Raise e => mkOut (Raise e) (post o) (evs o)
  end.

Notation "x <- c ;; k" := (bind c (fun x => k))
  (at level 61, c at next level, right associativity).
Notation "c ;;; k" := (bind c (fun _ => k))
  (at level 61, right associativity).

Definition emit (e : event) : M unit := fun w => mkOut (Ok tt) w [e].

Definition get_mon : M TimeMonitor := fun w => mkOut (Ok (w_mon w)) w [].

Definition set_running (b : bool) : M unit := fun w =>
  let m := w_mon w in
  mkOut (Ok tt)
        {| w_mon := Monitor (update_interval m) b (stdscr m);
           w_handler := w_handler w; w_clock := w_clock w |}
        [SetRunning b].

Definition set_stdscr (s : option window) : M unit := fun w =>
  let m := w_mon w in
  mkOut (Ok tt)
        {| w_mon := Monitor (update_interval m) (running m) s;
           w_handler := w_handler w; w_clock := w_clock w |}
        [SetStdscr s].

(** ** Formatting *)

Definition digit (n : N) : ascii := ascii_of_N (48 + n mod 10).

(** The decimal numeral of [n], most significant digit first. *)
Fixpoint decimal_fuel (fuel : nat) (n : N) : string :=
  match fuel with
  | O => ""
  | S f =>
      if (n <? 10)%N then String (digit n) ""
      else decimal_fuel f (n / 10)%N ++ String (digit n) ""
  end.

Definition decimal (n : N) : string :=
  decimal_fuel (S (N.to_nat (N.log2 n))) n.

Fixpoint zeros (k : nat) : string :=
  match k with
  | O => ""
  | S k' => String "0" (zeros k')
  end.

(** [str.zfill(width)] on a numeral *)
Definition zfill (width : nat) (s : string) : string :=
  zeros (width - String.length s) ++ s.

(** One directive of [strftime].  [%Y] is the year with century as a
    decimal number, which the C library prints without padding: four digits
    from the year 1000 on, fewer before.  [%m %d %H %M %S] are two digits
    and [%f], the microsecond, is six digits, zero padded. *)
Definition directive (c : ascii) (d : datetime) : string :=
  if Ascii.eqb c "Y" then decimal (year d)
  else if Ascii.eqb c "m" then zfill 2 (decimal (month d))
  else if Ascii.eqb c "d" then zfill 2 (decimal (day d))
  else if Ascii.eqb c "H" then zfill 2 (decimal (hour d))
  else if Ascii.eqb c "M" then zfill 2 (decimal (minute d))
  else if Ascii.eqb c "S" then zfill 2 (decimal (second d))
  else if Ascii.eqb c "f" then zfill 6 (decimal (microsecond d))
  else String "%" (String c "").

(** [d.strftime(fmt)] *)
Fixpoint strftime (fmt : string) (d : datetime) : string :=
  match fmt with
  | EmptyString => ""
  | String "%" (String c rest) => directive c d ++ strftime rest d
  | String c rest => String c (strftime rest d)
  end.

(** The slice [s[:-k]] *)
Definition drop_last (k : nat) (s : string) : string :=
  substring 0 (String.length s - k) s.

(** [len(s)] *)
Definition len (s : string) : Z := Z.of_nat (String.length s).

(** [ord("q")] and [ord("Q")] *)
Definition ord_q : Z := 113.
Definition ord_Q : Z := 81.

Definition is_quit_key (key : Z) : bool := (key =? ord_q) || (key =? ord_Q).

(** ** Signals *)

Section Program.

Variable E : Env.

(** [signal_handler] (lines 33-35), the closure over [self] that
    [setup_signal_handlers] registers. *)
Definition signal_handler (signum : Z) : M unit :=
  emit (Log INFO (MsgReceivedSignal signum)) ;;;
  set_running false.

(** A call boundary: the clock advances and, when the environment delivers
    a signal there and the handler is registered, the handler runs before
    the call proceeds.  A signal that arrives while the handler is not
    registered has the disposition the process had before [run]; what that
    disposition does is not part of the program and is left out. *)
Definition deliver : M nat := fun w =>
  let n := w_clock w in
  let w1 := {| w_mon := w_mon w; w_handler := w_handler w; w_clock := S n |} in
  match env_signal E n, w_handler w with
  | Some s, true => (signal_handler (signum_of s) ;;; ret n) w1
  | _, _ => mkOut (Ok n) w1 []
  end.

(** [logger.<level>(msg)] *)
Definition log (l : level) (m : logmsg) : M unit :=
  deliver ;;; emit (Log l m).

(** A call into curses or [time.sleep]: it either raises what the
    environment says or returns the environment's answer [answer n]. *)
Definition extcall {A} (c : call) (answer : nat -> A) (inj : A -> value) : M A :=
  n <- deliver ;;
  match env_fault E n with
  | Some e => emit (Ev c (Raised e)) ;;; raise e
  | None => emit (Ev c (Returned (inj (answer n)))) ;;; ret (answer n)
  end.

Definition proc (c : call) : M unit :=
  extcall c (fun _ => tt) (fun _ => VNone).

(** [datetime.now(tz)] reads the clock. *)
Definition now (tz : tzinfo) : M datetime :=
  n <- deliver ;;
  emit (Ev (datetime_now tz) (Returned (VDatetime (env_now E n tz)))) ;;;
  ret (env_now E n tz).

(** ** [TimeMonitor] *)

(** [__init__] (lines 19-28).  No handler closing over the new object is
    registered yet. *)
Definition TimeMonitor_init (interval : float) : M unit := fun w =>
  (log INFO (MsgInitialized interval))
    {| w_mon := Monitor interval false None;
       w_handler := false; w_clock := w_clock w |}.

(** [setup_signal_handlers] (lines 30-38).  The two calls of
    [signal.signal] are taken to return, which they do on the main thread of
    the interpreter, where [main] calls [run]. *)
Definition setup_signal_handlers : M unit := fun w =>
  mkOut (Ok tt)
        {| w_mon := w_mon w; w_handler := true; w_clock := w_clock w |}
        [Register SIGINT; Register SIGTERM].

(** [init_curses] (lines 40-52) *)
Definition init_curses : M unit :=
  log DEBUG MsgInitCurses ;;;
  s <- extcall curses_initscr (env_initscr E) VWindow ;;
  set_stdscr s ;;;
  match s with
  | None =>
      log ERROR MsgInitFailed ;;;
      raise (RuntimeError "Failed to initialize curses")
  | Some win =>
      proc curses_noecho ;;;
      proc curses_cbreak ;;;
      proc (win_keypad win true) ;;;
      proc (win_nodelay win true) ;;;
      proc (curses_curs_set 0)
  end.

(** [cleanup_curses] (lines 54-61) *)
Definition cleanup_curses : M unit :=
  log DEBUG MsgCleanup ;;;
  m <- get_mon ;;
  match stdscr m with
  | Some win =>
      proc curses_nocbreak ;;;
      proc (win_keypad win false) ;;;
      proc curses_echo ;;;
      proc curses_endwin
  | None => ret tt
  end.

(** [format_time] (lines 63-70) *)
Definition format_time : M string :=
  d <- now timezone_utc ;;
  ret (drop_last 3 (strftime "%Y-%m-%d %H:%M:%S.%f" d)).

(** What one pass through the body of the [while] does next. *)
Inductive flow : Type := Break | Next.

(** Drawing one frame (lines 90-103). *)
Definition render (win : window) : M unit :=
  proc (win_clear win) ;;;
  time_str <- format_time ;;
  hw <- extcall (win_getmaxyx win) (env_getmaxyx E)
                (fun p => VPair (fst p) (snd p)) ;;
  let height := fst hw in
  let width := snd hw in
  let y := height / 2 in
  let x := Z.max 0 ((width - len time_str) / 2) in
  proc (win_addstr win y x time_str) ;;;
  proc (win_addstr win (height - 2) 0 "Press 'q' to quit") ;;;
  proc (win_refresh win).

(** The body of the [while] up to the sleep (lines 83-107). *)
Definition frame : M flow :=
  m <- get_mon ;;
  match stdscr m with
  | Some win =>
      key <- extcall (win_getch win) (env_getch E) VInt ;;
      if is_quit_key key then
        log INFO MsgUserQuit ;;;
        ret Break
      else
        render win ;;;
        ret Next
  | None =>
      log ERROR MsgStdscrNone ;;;
      ret Break
  end.

(** The sleep that ends an iteration (line 110). *)
Definition pause : M unit :=
  m <- get_mon ;;
  proc (time_sleep (update_interval m)).

(** One pass through the body of the [while] (lines 82-110): a [break]
    skips the sleep. *)
Definition iteration : M flow :=
  fl <- frame ;;
  match fl with
  | Break => ret Break
  | Next => pause ;;; ret Next
  end.

(** The [while self.running] loop (lines 81-110).  [None] means that the
    loop is still running after [fuel] iterations. *)
Fixpoint loop (fuel : nat) (w : World) : option (Out unit) :=
  match fuel with
  | O => None
  | S f =>
      if running (w_mon w) then
        let o := iteration w in
        match res o with
        | Ok Next =>
            match loop f (post o) with
            | Some o' => Some (mkOut (res o') (post o') (evs o ++ evs o'))
            | None => None
            end
        | Ok Break => Some (mkOut (Ok tt) (post o) (evs o))
        | Raise e => Some (mkOut (Raise e) (post o) (evs o))
        end
      else Some (mkOut (Ok tt) w [])
  end.

(** The [try] block of [run] (lines 79-110). *)
Definition run_try (fuel : nat) (w : World) : option (Out unit) :=
  let o := init_curses w in
  match res o with
  | Ok _ =>
      match loop fuel (post o) with
      | Some o' => Some (mkOut (res o') (post o') (evs o ++ evs o'))
      | None => None
      end
  | Raise e => Some (mkOut (Raise e) (post o) (evs o))
  end.

(** The [except] clauses of [run] (lines 112-116), applied to what the
    [try] block raised. *)
Definition run_except (e : exn) : M unit :=
  if is_KeyboardInterrupt e then log INFO MsgKeyboardInterrupt
  else if is_Exception e then log ERROR (MsgUnexpected e) ;;; raise e
  else raise e.

(** The [finally] clause of [run] (lines 118-120). *)
Definition run_finally : M unit :=
  set_running false ;;;
  cleanup_curses ;;;
  log INFO MsgShutdownComplete.

(** [try: c  finally: f]: [f] runs whatever [c] did; what [f] raises
    replaces what [c] raised. *)
Definition finally {A} (o : Out A) (f : M unit) : Out A :=
  let o' := f (post o) in
  match res o' with
  | Ok _ => mkOut (res o) (post o') (evs o ++ evs o')
  | Raise e => mkOut (Raise e) (post o') (evs o ++ evs o')
  end.

(** Lines 74-76 of [run], before the [try] statement. *)
Definition run_enter : M unit :=
  log INFO MsgStartLoop ;;;
  set_running true ;;;
  setup_signal_handlers.

(** The [try] statement of [run] with its [except] clauses (lines 78-116):
    [o1] is how the [try] block ended. *)
Definition run_caught (o1 : Out unit) : Out unit :=
  match res o1 with
  | Ok _ => o1
  | Raise e =>
      let oh := run_except e (post o1) in
      mkOut (res oh) (post oh) (evs o1 ++ evs oh)
  end.

(** [run] (lines 72-120) *)
Definition run (fuel : nat) (w : World) : option (Out unit) :=
  let o0 := run_enter w in
  match run_try fuel (post o0) with
  | None => None
  | Some o1 =>
      let o3 := finally (run_caught o1) run_finally in
      Some (mkOut (res o3) (post o3) (evs o0 ++ evs o3))
  end.

(** ** The command *)

(** The literal [0.001] of line 154, as the binary64 value it denotes. *)
Definition small_interval : float := 0x1.0624dd2f1a9fcp-10.

(** [main] (lines 126-164).  [logging.basicConfig] is taken to return: the
    log file can be opened. *)
Definition main (interval : float) (verbose : bool) (fuel : nat) (w : World)
  : option (Out unit) :=
  let pre :=
    (emit (BasicConfig (if verbose then DEBUG else INFO) verbose) ;;;
     log INFO (MsgStartCLI interval verbose) ;;;
     if PrimFloat.leb interval 0 then
       emit (EchoErr "Error: Interval must be greater than 0") ;;;
       log ERROR (MsgInvalidInterval interval) ;;;
       raise (SystemExit 1)
     else if PrimFloat.ltb interval small_interval then
       emit (EchoErr "Warning: Very small intervals may cause high CPU usage") ;;;
       log WARNING (MsgSmallInterval interval)
     else ret tt) w in
  match res pre with
  | Raise e => Some pre
  | Ok _ =>
      let oc := TimeMonitor_init interval (post pre) in
      match run fuel (post oc) with
      | None => None
      | Some o =>
          let body := mkOut (res o) (post o) (evs pre ++ evs oc ++ evs o) in
          match res o with
          | Ok _ => Some body
          | Raise e =>
              if is_Exception e then
                let oh := (log ERROR (MsgFailedToRun e) ;;;
                           emit (EchoErr ("Error: " ++ exn_str e)) ;;;
                           raise (SystemExit 1)) (post o) in
                Some (mkOut (res oh) (post oh) (evs body ++ evs oh))
              else Some body
          end
      end
  end.

End Program.

Arguments signal_handler signum _ /.

(** * Properties *)

(** ** Classes of events *)

Definition is_call (e : event) : bool :=
  match e with Ev _ _ => true | _ => false end.

(** The record that opens every invocation of [cleanup_curses] (line 56). *)
Definition is_teardown (e : event) : bool :=
  match e with Log DEBUG MsgCleanup => true | _ => false end.

(** The key poll. *)
Definition is_poll (e : event) : bool :=
  match e with Ev (win_getch _) _ => true | _ => false end.

(** The drawing calls: clear, write, refresh. *)
Definition is_render (e : event) : bool :=
  match e with
  | Ev (win_clear _) _ | Ev (win_addstr _ _ _ _) _ | Ev (win_refresh _) _ => true
  | _ => false
  end.

(** Every call the body of the loop makes: poll, clock, size, drawing,
    sleep. *)
Definition is_frame_call (e : event) : bool :=
  match e with
  | Ev (win_getch _) _ | Ev (win_clear _) _ | Ev (datetime_now _) _
  | Ev (win_getmaxyx _) _ | Ev (win_addstr _ _ _ _) _ | Ev (win_refresh _) _
  | Ev (time_sleep _) _ => true
  | _ => false
  end.

(** A poll that returned the quit key. *)
Definition is_quit_poll (e : event) : bool :=
  match e with
  | Ev (win_getch _) (Returned (VInt key)) => is_quit_key key
  | _ => false
  end.

Definition is_stdscr_none (e : event) : bool :=
  match e with Log ERROR MsgStdscrNone => true | _ => false end.

(** The alphabets of the parts of [run]. *)

Definition handler_event (e : event) : bool :=
  match e with
  | Log INFO (MsgReceivedSignal _) | SetRunning false => true
  | _ => false
  end.

Definition enter_event (e : event) : bool :=
  handler_event e ||
  match e with
  | Log INFO MsgStartLoop | SetRunning true | Register _ => true
  | _ => false
  end.

Definition init_event (e : event) : bool :=
  handler_event e ||
  match e with
  | Log DEBUG MsgInitCurses | Log ERROR MsgInitFailed | SetStdscr _
  | Ev curses_initscr _ | Ev curses_noecho _ | Ev curses_cbreak _
  | Ev (win_keypad _ true) _ | Ev (win_nodelay _ true) _
  | Ev (curses_curs_set 0) _ => true
  | _ => false
  end.

Definition draw_event (e : event) : bool :=
  handler_event e ||
  match e with
  | Ev (win_clear _) _ | Ev (datetime_now timezone_utc) _
  | Ev (win_getmaxyx _) _ | Ev (win_addstr _ _ _ _) _ | Ev (win_refresh _) _
  | Ev (time_sleep _) _ => true
  | _ => false
  end.

Definition loop_event (e : event) : bool :=
  draw_event e ||
  match e with
  | Ev (win_getch _) _ | Log INFO MsgUserQuit => true
  | _ => false
  end.

Definition except_event (e : event) : bool :=
  handler_event e ||
  match e with
  | Log INFO MsgKeyboardInterrupt | Log ERROR (MsgUnexpected _) => true
  | _ => false
  end.

Definition teardown_event (e : event) : bool :=
  handler_event e ||
  match e with
  | Log DEBUG MsgCleanup
  | Ev curses_nocbreak _ | Ev (win_keypad _ false) _
  | Ev curses_echo _ | Ev curses_endwin _ => true
  | _ => false
  end.

Definition finally_event (e : event) : bool :=
  teardown_event e ||
  match e with Log INFO MsgShutdownComplete => true | _ => false end.

(** ** Counting and ordering in traces *)

Fixpoint count (p : event -> bool) (tr : trace) : nat :=
  match tr with
  | [] => 0
  | e :: t => (if p e then 1 else 0) + count p t
  end.

(** No call of the loop body follows a poll that returned the quit key. *)
Fixpoint quit_is_final (tr : trace) : bool :=
  match tr with
  | [] => true
  | e :: t =>
      (if is_quit_poll e then forallb (fun x => negb (is_frame_call x)) t else true)
      && quit_is_final t
  end.

(** No drawing call comes before the first poll. *)
Fixpoint poll_before_render (tr : trace) : bool :=
  match tr with
  | [] => true
  | e :: t => if is_poll e then true else negb (is_render e) && poll_before_render t
  end.

(** ** The terminal settings *)

(** The settings of the terminal the curses calls of the program act on, as
    the curses library documents them: echo of typed keys, cbreak
    (non-canonical) input, keypad and no-delay modes of the window, the
    visibility of the cursor, and whether the screen is in curses mode. *)
Record tty : Type := Tty {
  tty_echo : bool;
  tty_cbreak : bool;
  tty_keypad : bool;
  tty_nodelay : bool;
  tty_cursor : Z;
  tty_curses_mode : bool
}.

(** The effect of one event on the settings; a call that raised has none. *)
Definition tty_step (t : tty) (e : event) : tty :=
  match e with
  | Ev c (Returned _) =>
      match c with
      | curses_initscr =>
          Tty (tty_echo t) (tty_cbreak t) (tty_keypad t) (tty_nodelay t) (tty_cursor t) true
      | curses_noecho =>
          Tty false (tty_cbreak t) (tty_keypad t) (tty_nodelay t) (tty_cursor t) (tty_curses_mode t)
      | curses_echo =>
          Tty true (tty_cbreak t) (tty_keypad t) (tty_nodelay t) (tty_cursor t) (tty_curses_mode t)
      | curses_cbreak =>
          Tty (tty_echo t) true (tty_keypad t) (tty_nodelay t) (tty_cursor t) (tty_curses_mode t)
      | curses_nocbreak =>
          Tty (tty_echo t) false (tty_keypad t) (tty_nodelay t) (tty_cursor t) (tty_curses_mode t)
      | win_keypad _ b =>
          Tty (tty_echo t) (tty_cbreak t) b (tty_nodelay t) (tty_cursor t) (tty_curses_mode t)
      | win_nodelay _ b =>
          Tty (tty_echo t) (tty_cbreak t) (tty_keypad t) b (tty_cursor t) (tty_curses_mode t)
      | curses_curs_set v =>
          Tty (tty_echo t) (tty_cbreak t) (tty_keypad t) (tty_nodelay t) v (tty_curses_mode t)
      | curses_endwin =>
          Tty (tty_echo t) (tty_cbreak t) (tty_keypad t) (tty_nodelay t) (tty_cursor t) false
      | _ => t
      end
  | _ => t
  end.

Definition tty_after (t : tty) (tr : trace) : tty := fold_left tty_step tr t.

(** ** Vocabulary of the proofs *)

Definition try_event (e : event) : bool := init_event e || loop_event e.

Definition is_set_true (e : event) : bool :=
  match e with SetRunning true => true | _ => false end.

Definition is_set_false (e : event) : bool :=
  match e with SetRunning false => true | _ => false end.

Definition is_construct (e : event) : bool :=
  match e with Log _ (MsgInitialized _) => true | _ => false end.

(** The settings a finished tear-down leaves. *)
Definition restored (t : tty) : tty :=
  Tty true false false (tty_nodelay t) (tty_cursor t) false.

Definition is_digit (c : ascii) : bool :=
  ((48 <=? N_of_ascii c) && (N_of_ascii c <=? 57))%N.

Fixpoint only_digits (s : string) : bool :=
  match s with
  | EmptyString => true
  | String c s' => is_digit c && only_digits s'
  end.

(** [matches pattern s]: [s] has the length of [pattern], a decimal digit
    wherever [pattern] has the letter d, and the character of [pattern]
    everywhere else. *)
Fixpoint matches (pattern s : string) : bool :=
  match pattern, s with
  | EmptyString, EmptyString => true
  | String p ps, String c cs =>
      (if Ascii.eqb p "d" then is_digit c else Ascii.eqb p c) && matches ps cs
  | _, _ => false
  end.

(** [emits p c]: every event [c] emits satisfies [p]. *)
Definition emits {A} (p : event -> bool) (c : M A) : Prop :=
  forall w, forallb p (evs (c w)) = true.

(** [keeps I c]: [c] preserves the property [I] of the process state. *)
Definition keeps {A} (I : World -> Prop) (c : M A) : Prop :=
  forall w, I w -> I (post (c w)).

(** A property of the state that neither the clock nor the signal handler
    can break. *)
Definition stable (I : World -> Prop) : Prop :=
  forall w, I w -> forall n,
    I {| w_mon := w_mon w; w_handler := w_handler w; w_clock := n |} /\
    I {| w_mon := Monitor (update_interval (w_mon w)) false (stdscr (w_mon w));
         w_handler := w_handler w; w_clock := n |}.

(** The world after one call boundary at which nothing arrives. *)
Definition tick (w : World) : World :=
  {| w_mon := w_mon w; w_handler := w_handler w; w_clock := S (w_clock w) |}.

Section Devices.

Variable E : Env.

(** [faults c]: whatever [c] raises was raised by an external call. *)
Definition faults {A} (c : M A) : Prop :=
  forall w e, res (c w) = Raise e -> exists n, env_fault E n = Some e.

(** The body of the loop once [self.stdscr] is known to be [win]. *)
Definition polled (win : window) : M flow :=
  key <- extcall E (win_getch win) (env_getch E) VInt ;;
  if is_quit_key key then log E INFO MsgUserQuit ;;; ret Break
  else render E win ;;; ret Next.

Definition after_frame (fl : flow) : M flow :=
  match fl with
  | Break => ret Break
  | Next => pause E ;;; ret Next
  end.

(** The body of [cleanup_curses] after its log record. *)
Definition restore : M unit :=
  m <- get_mon ;;
  match stdscr m with
  | Some win =>
      proc E curses_nocbreak ;;;
      proc E (win_keypad win false) ;;;
      proc E curses_echo ;;;
      proc E curses_endwin
  | None => ret tt
  end.

End Devices.

(** ** Concrete processes and terminals *)

(** The default of [--interval], [0.05], as the binary64 value it denotes. *)
Definition default_interval : float := 0x1.999999999999ap-5.

(** A process in which nothing has happened yet. *)
Definition boot : World :=
  {| w_mon := Monitor default_interval false None;
     w_handler := false; w_clock := 0 |}.

(** The same process once [run] has opened the session. *)
Definition opened : World :=
  {| w_mon := Monitor default_interval true (Some (Window 0));
     w_handler := true; w_clock := 8 |}.

Definition noon : datetime := Datetime 2024 1 1 12 0 0 0.

Fixpoint lookup {A} (n : nat) (l : list (nat * A)) : option A :=
  match l with
  | [] => None
  | (k, a) :: t => if Nat.eqb k n then Some a else lookup n t
  end.

(** A terminal of 24 by 80 at noon: [key] is typed at every poll, the calls
    listed in [faults] raise, the signals listed in [signals] arrive. *)
Definition terminal (screen : option window) (key : Z)
    (faults : list (nat * exn)) (signals : list (nat * termination)) : Env :=
  {| env_signal := fun n => lookup n signals;
     env_fault := fun n => lookup n faults;
     env_initscr := fun _ => screen;
     env_getch := fun _ => key;
     env_getmaxyx := fun _ => (24, 80);
     env_now := fun _ _ => noon |}.

(** The user types [q] at once. *)
Definition quits_at_once : Env := terminal (Some (Window 0)) ord_q [] [].

(** The user types [A]; the first [refresh] fails. *)
Definition refresh_fails : Env :=
  terminal (Some (Window 0)) 65 [(14%nat, curses_error "refresh() returned ERR")] [].

(** The user types [A]; [SIGTERM] arrives during the first frame. *)
Definition terminated : Env := terminal (Some (Window 0)) 65 [] [(10%nat, Terminate)].

(** [initscr] returns [None]. *)
Definition no_screen : Env := terminal None 65 [] [].

(** The user types [A] for ever on a terminal that never fails. *)
Definition calm : Env := terminal (Some (Window 0)) 65 [] [].

(** What [run] emits up to the first poll on a terminal that opens. *)
Definition opening : trace :=
  [Log INFO MsgStartLoop; SetRunning true; Register SIGINT; Register SIGTERM;
   Log DEBUG MsgInitCurses;
   Ev curses_initscr (Returned (VWindow (Some (Window 0))));
   SetStdscr (Some (Window 0));
   Ev curses_noecho (Returned VNone); Ev curses_cbreak (Returned VNone);
   Ev (win_keypad (Window 0) true) (Returned VNone);
   Ev (win_nodelay (Window 0) true) (Returned VNone);
   Ev (curses_curs_set 0) (Returned VNone)].

(** What the [finally] clause emits on such a terminal. *)
Definition closing : trace :=
  [SetRunning false; Log DEBUG MsgCleanup;
   Ev curses_nocbreak (Returned VNone);
   Ev (win_keypad (Window 0) false) (Returned VNone);
   Ev curses_echo (Returned VNone); Ev curses_endwin (Returned VNone);
   Log INFO MsgShutdownComplete].

(** ** Further vocabulary *)

(** The error [init_curses] raises itself (line 47). *)
Definition init_error : exn := RuntimeError "Failed to initialize curses".

(** The curses calls of [cleanup_curses] (lines 58-61). *)
Definition is_restore_call (c : call) : bool :=
  match c with
  | curses_nocbreak | win_keypad _ false | curses_echo | curses_endwin => true
  | _ => false
  end.

(** [blames p c]: when [c] raises, the last thing it did is a call of class
    [p], and what [c] raises is what that call raised. *)
Definition blames {A} (p : call -> bool) (c : M A) : Prop :=
  forall w e, res (c w) = Raise e ->
    exists cl tr, p cl = true /\ evs (c w) = tr ++ [Ev cl (Raised e)].

(** The settings [init_curses] establishes. *)
Definition full_screen : tty := Tty false true true true 0 true.

(** The user types [A]; the first poll raises [KeyboardInterrupt]. *)
Definition interrupted : Env :=
  terminal (Some (Window 0)) 65 [(8%nat, KeyboardInterrupt)] [].

Definition is_sleep (e : event) : bool :=
  match e with Ev (time_sleep _) _ => true | _ => false end.

(** If [e] is a call of [time.sleep], it is called with [secs]. *)
Definition sleeps_for (secs : float) (e : event) : Prop :=
  forall s oc, e = Ev (time_sleep s) oc -> s = secs.

(** After a write of [False] to [self.running] at most one more poll and
    at most one more sleep occur. *)
Fixpoint stops_soon (tr : trace) : bool :=
  match tr with
  | [] => true
  | e :: t =>
      (if is_set_false e
       then (count is_poll t <=? 1)%nat && (count is_sleep t <=? 1)%nat
       else true)
      && stops_soon t
  end.

(** [tracks c]: the flag after [c] is false if [c] wrote [False], and what
    it was otherwise. *)
Definition tracks {A} (c : M A) : Prop :=
  forall w, running (w_mon (post (c w))) =
            if existsb is_set_false (evs (c w)) then false
            else running (w_mon w).

(** [at_most p n c]: [c] emits at most [n] events of class [p]. *)
Definition at_most {A} (p : event -> bool) (n : nat) (c : M A) : Prop :=
  forall w, (count p (evs (c w)) <= n)%nat.

(** [advances c]: [c] passes at least one call boundary. *)
Definition advances {A} (c : M A) : Prop :=
  forall w, (w_clock w < w_clock (post (c w)))%nat.

(** The handler is registered and the signal of point [n] is still to come
    or has cleared the flag. *)
Definition awaiting (n : nat) (w : World) : Prop :=
  w_handler w = true /\ ((w_clock w <= n)%nat \/ running (w_mon w) = false).

(** [SIGINT] arrives while the second frame is drawn. *)
Definition interrupted_later : Env :=
  terminal (Some (Window 0)) 65 [] [(18%nat, Interrupt)].

Definition is_echo (e : event) : bool :=
  match e with EchoErr _ => true | _ => false end.

(** Lines 137-156 of [main]: logging set-up and the checks of the interval. *)
Definition main_prelude (E : Env) (interval : float) (verbose : bool) : M unit :=
  emit (BasicConfig (if verbose then DEBUG else INFO) verbose) ;;;
  log E INFO (MsgStartCLI interval verbose) ;;;
  if PrimFloat.leb interval 0 then
    emit (EchoErr "Error: Interval must be greater than 0") ;;;
    log E ERROR (MsgInvalidInterval interval) ;;;
    raise (SystemExit 1)
  else if PrimFloat.ltb interval small_interval then
    emit (EchoErr "Warning: Very small intervals may cause high CPU usage") ;;;
    log E WARNING (MsgSmallInterval interval)
  else ret tt.

(** The [except] clause of [main] (lines 161-164). *)
Definition main_failed (E : Env) (e : exn) : M unit :=
  log E ERROR (MsgFailedToRun e) ;;;
  emit (EchoErr ("Error: " ++ exn_str e)) ;;;
  raise (SystemExit 1).

(** One millisecond less than a second past noon. *)
Definition late : datetime := Datetime 2024 1 1 12 0 0 999999.

(** The terminal [calm] a microsecond before 12:00:01. *)
Definition calm_late : Env :=
  {| env_signal := env_signal calm;
     env_fault := env_fault calm;
     env_initscr := env_initscr calm;
     env_getch := env_getch calm;
     env_getmaxyx := env_getmaxyx calm;
     env_now := fun _ _ => late |}.

(** What [run] emits on [terminated] after the handler has cleared the
    flag. *)
Definition after_signal : trace :=
  [Ev (datetime_now timezone_utc) (Returned (VDatetime noon));
   Ev (win_getmaxyx (Window 0)) (Returned (VPair 24 80));
   Ev (win_addstr (Window 0) 12 28 "2024-01-01 12:00:00.000") (Returned VNone);
   Ev (win_addstr (Window 0) 22 0 "Press 'q' to quit") (Returned VNone);
   Ev (win_refresh (Window 0)) (Returned VNone);
   Ev (time_sleep default_interval) (Returned VNone)] ++ closing.

(** The interval [0.0005], as the binary64 value it denotes. *)
Definition half_millisecond : float := 0x1.0624dd2f1a9fcp-11.

(** ** Lemmas on traces *)

Lemma forallb_weaken (p q : event -> bool) (tr : trace) :
  (forall e, p e = true -> q e = true) ->
  forallb p tr = true -> forallb q tr = true.
Proof.
  intros Hpq; induction tr as [|e t IH]; simpl; [reflexivity|].
  intros H; apply andb_true_iff in H as [He Ht].
  rewrite (Hpq _ He), (IH Ht); reflexivity.
Qed.

Lemma forallb_app2 (p : event -> bool) (l1 l2 : trace) :
  forallb p l1 = true -> forallb p l2 = true -> forallb p (l1 ++ l2) = true.
Proof. intros H1 H2; rewrite forallb_app, H1, H2; reflexivity. Qed.

Lemma count_app (p : event -> bool) (l1 l2 : trace) :
  count p (l1 ++ l2) = (count p l1 + count p l2)%nat.
Proof. induction l1 as [|e t IH]; simpl; [reflexivity|rewrite IH; lia]. Qed.

Lemma count_none (p : event -> bool) (tr : trace) :
  forallb (fun e => negb (p e)) tr = true -> count p tr = 0%nat.
Proof.
  induction tr as [|e t IH]; simpl; [reflexivity|].
  intros H; apply andb_true_iff in H as [He Ht].
  apply negb_true_iff in He; rewrite He, (IH Ht); reflexivity.
Qed.

Lemma existsb_none (p : event -> bool) (tr : trace) :
  forallb (fun e => negb (p e)) tr = true -> existsb p tr = false.
Proof.
  induction tr as [|e t IH]; simpl; [reflexivity|].
  intros H; apply andb_true_iff in H as [He Ht].
  apply negb_true_iff in He; rewrite He, (IH Ht); reflexivity.
Qed.

Lemma quit_is_final_no_quit (tr : trace) :
  existsb is_quit_poll tr = false -> quit_is_final tr = true.
Proof.
  induction tr as [|e t IH]; simpl; [reflexivity|].
  intros H; apply orb_false_iff in H as [He Ht].
  rewrite He, (IH Ht); reflexivity.
Qed.

Lemma quit_is_final_app (l1 l2 : trace) :
  quit_is_final l1 = true -> quit_is_final l2 = true ->
  existsb is_quit_poll l1 = false \/
  forallb (fun x => negb (is_frame_call x)) l2 = true ->
  quit_is_final (l1 ++ l2) = true.
Proof.
  induction l1 as [|e t IH]; simpl; intros H1 H2 H; [exact H2|].
  apply andb_true_iff in H1 as [He Ht].
  rewrite IH; trivial.
  - rewrite andb_true_r.
    destruct (is_quit_poll e) eqn:Hq; [|reflexivity].
    destruct H as [H|H]; [discriminate H|].
    apply forallb_app2; assumption.
  - destruct H as [H|H]; [left|right; exact H].
    apply orb_false_iff in H; tauto.
Qed.

Lemma quit_is_final_split (pre post : trace) (x : event) :
  quit_is_final (pre ++ x :: post) = true -> is_quit_poll x = true ->
  forallb (fun e => negb (is_frame_call e)) post = true.
Proof.
  induction pre as [|e t IH]; simpl; intros H Hx.
  - rewrite Hx in H; apply andb_true_iff in H; tauto.
  - apply andb_true_iff in H as [_ H]; auto.
Qed.

Lemma poll_before_render_quiet (tr : trace) :
  forallb (fun e => negb (is_render e)) tr = true -> poll_before_render tr = true.
Proof.
  induction tr as [|e t IH]; simpl; [reflexivity|].
  intros H; apply andb_true_iff in H as [He Ht].
  rewrite He, (IH Ht); destruct (is_poll e); reflexivity.
Qed.

Lemma poll_before_render_app (l1 l2 : trace) :
  poll_before_render l1 = true ->
  existsb is_poll l1 = true \/ poll_before_render l2 = true ->
  poll_before_render (l1 ++ l2) = true.
Proof.
  induction l1 as [|e t IH]; simpl; intros H1 H.
  - destruct H as [H|H]; [discriminate H|exact H].
  - destruct (is_poll e); [reflexivity|].
    apply andb_true_iff in H1 as [He Ht]; rewrite He; simpl in *; auto.
Qed.

Lemma poll_before_render_split (pre post : trace) :
  poll_before_render (pre ++ post) = true ->
  forallb (fun e => negb (is_poll e)) pre = true ->
  forallb (fun e => negb (is_render e)) pre = true.
Proof.
  induction pre as [|e t IH]; simpl; intros H Hp; [reflexivity|].
  apply andb_true_iff in Hp as [He Ht].
  apply negb_true_iff in He; rewrite He in H.
  apply andb_true_iff in H as [Hr H]; rewrite Hr; simpl; auto.
Qed.

Lemma tty_after_app (t : tty) (l1 l2 : trace) :
  tty_after t (l1 ++ l2) = tty_after (tty_after t l1) l2.
Proof. apply fold_left_app. Qed.

(** ** Lemmas on the monad *)

Lemma bind_ok {A B} (c : M A) (k : A -> M B) (w : World) (a : A) :
  res (c w) = Ok a ->
  bind c k w = mkOut (res (k a (post (c w)))) (post (k a (post (c w))))
                     (evs (c w) ++ evs (k a (post (c w)))).
Proof. unfold bind; intros ->; reflexivity. Qed.

Lemma bind_raise {A B} (c : M A) (k : A -> M B) (w : World) (e : exn) :
  res (c w) = Raise e ->
  bind c k w = mkOut (Raise e) (post (c w)) (evs (c w)).
Proof. unfold bind; intros ->; reflexivity. Qed.

Lemma emits_ret {A} p (a : A) : emits p (ret a).
Proof. intros w; reflexivity. Qed.

Lemma emits_raise {A} p e : emits p (@raise A e).
Proof. intros w; reflexivity. Qed.

Lemma emits_get_mon p : emits p get_mon.
Proof. intros w; reflexivity. Qed.

Lemma emits_emit p e : p e = true -> emits p (emit e).
Proof. intros H w; simpl; rewrite H; reflexivity. Qed.

Lemma emits_set_running p b : p (SetRunning b) = true -> emits p (set_running b).
Proof. intros H w; simpl; rewrite H; reflexivity. Qed.

Lemma emits_set_stdscr p s : p (SetStdscr s) = true -> emits p (set_stdscr s).
Proof. intros H w; simpl; rewrite H; reflexivity. Qed.

Lemma emits_bind {A B} p (c : M A) (k : A -> M B) :
  emits p c -> (forall a, emits p (k a)) -> emits p (bind c k).
Proof.
  intros Hc Hk w; unfold bind.
  specialize (Hc w); destruct (res (c w)); simpl; [|exact Hc].
  apply forallb_app2; [exact Hc|apply Hk].
Qed.

Lemma emits_weaken {A} (p q : event -> bool) (c : M A) :
  (forall e, p e = true -> q e = true) -> emits p c -> emits q c.
Proof. intros Hpq Hc w; eapply forallb_weaken; [exact Hpq|apply Hc]. Qed.

Lemma keeps_ret {A} I (a : A) : keeps I (ret a).
Proof. intros w H; exact H. Qed.

Lemma keeps_raise {A} I e : keeps I (@raise A e).
Proof. intros w H; exact H. Qed.

Lemma keeps_get_mon I : keeps I get_mon.
Proof. intros w H; exact H. Qed.

Lemma keeps_emit I e : keeps I (emit e).
Proof. intros w H; exact H. Qed.

Lemma keeps_bind {A B} I (c : M A) (k : A -> M B) :
  keeps I c -> (forall a, keeps I (k a)) -> keeps I (bind c k).
Proof.
  intros Hc Hk w Hw; unfold bind.
  specialize (Hc w Hw); destruct (res (c w)); simpl; [|exact Hc].
  apply Hk; exact Hc.
Qed.

Lemma world_eta (w : World) :
  {| w_mon := w_mon w; w_handler := w_handler w; w_clock := w_clock w |} = w.
Proof. destruct w; reflexivity. Qed.

Lemma keeps_set_running_false I : stable I -> keeps I (set_running false).
Proof. intros HI w Hw; simpl; apply (HI w Hw). Qed.

(** Case analysis on an event, down to the constructors the event classes
    look at. *)
Ltac event_cases e :=
  destruct e as [[ | | |[|?|?]| | | |? [|]|? [|]|?|?|?|? ? ? ?|?|?|[]] ?
                |[] []|[|]|?|?|? ?|?].

(** Solves [forall e, p e = true -> q e = true] for event classes. *)
Ltac sub_events :=
  let e := fresh "e" in
  let He := fresh "He" in
  intros e He; event_cases e; simpl in He |- *;
  solve [reflexivity | discriminate He].

Section Facts.

Variable E : Env.

(** *** The call boundary *)

Lemma deliver_res (w : World) : res (deliver E w) = Ok (w_clock w).
Proof.
  unfold deliver; destruct (env_signal E (w_clock w)), (w_handler w); reflexivity.
Qed.

Lemma deliver_evs (w : World) :
  evs (deliver E w) =
  match env_signal E (w_clock w), w_handler w with
  | Some s, true => [Log INFO (MsgReceivedSignal (signum_of s)); SetRunning false]
  | _, _ => []
  end.
Proof.
  unfold deliver; destruct (env_signal E (w_clock w)), (w_handler w); reflexivity.
Qed.

Lemma deliver_unregistered (w : World) :
  w_handler w = false -> evs (deliver E w) = [].
Proof.
  intros H; rewrite deliver_evs, H; destruct (env_signal E (w_clock w)); reflexivity.
Qed.

Lemma deliver_handler (w : World) :
  w_handler (post (deliver E w)) = w_handler w.
Proof.
  unfold deliver; destruct (env_signal E (w_clock w)), (w_handler w); reflexivity.
Qed.

Lemma emits_deliver p :
  (forall e, handler_event e = true -> p e = true) -> emits p (deliver E).
Proof.
  intros Hp w; rewrite deliver_evs.
  destruct (env_signal E (w_clock w)), (w_handler w); simpl; trivial.
  rewrite !Hp; reflexivity.
Qed.

Lemma keeps_deliver I : stable I -> keeps I (deliver E).
Proof.
  intros HI w Hw; unfold deliver.
  destruct (env_signal E (w_clock w)), (w_handler w) eqn:Hh; simpl;
    try rewrite <- Hh; apply (HI w Hw).
Qed.

(** *** Logger calls *)

Lemma log_res l m (w : World) : res (log E l m w) = Ok tt.
Proof. unfold log; rewrite (bind_ok _ _ _ _ (deliver_res w)); reflexivity. Qed.

Lemma log_evs l m (w : World) :
  evs (log E l m w) = evs (deliver E w) ++ [Log l m].
Proof. unfold log; rewrite (bind_ok _ _ _ _ (deliver_res w)); reflexivity. Qed.

Lemma log_post l m (w : World) : post (log E l m w) = post (deliver E w).
Proof. unfold log; rewrite (bind_ok _ _ _ _ (deliver_res w)); reflexivity. Qed.

Lemma emits_log p l m :
  (forall e, handler_event e = true -> p e = true) -> p (Log l m) = true ->
  emits p (log E l m).
Proof.
  intros Hp Hl; apply emits_bind; [apply emits_deliver, Hp|].
  intros _; apply emits_emit, Hl.
Qed.

Lemma keeps_log I l m : stable I -> keeps I (log E l m).
Proof.
  intros HI; apply keeps_bind; [apply keeps_deliver, HI|intros; apply keeps_emit].
Qed.

(** *** External calls *)

Lemma extcall_res {A} c (answer : nat -> A) inj (w : World) :
  res (extcall E c answer inj w) =
  match env_fault E (w_clock w) with
  | Some e => Raise e
  | None => Ok (answer (w_clock w))
  end.
Proof.
  unfold extcall; rewrite (bind_ok _ _ _ _ (deliver_res w)); simpl.
  destruct (env_fault E (w_clock w)); reflexivity.
Qed.

Lemma extcall_evs {A} c (answer : nat -> A) inj (w : World) :
  evs (extcall E c answer inj w) =
  evs (deliver E w) ++
  [Ev c match env_fault E (w_clock w) with
        | Some e => Raised e
        | None => Returned (inj (answer (w_clock w)))
        end].
Proof.
  unfold extcall; rewrite (bind_ok _ _ _ _ (deliver_res w)); simpl.
  destruct (env_fault E (w_clock w)); reflexivity.
Qed.

Lemma extcall_post {A} c (answer : nat -> A) inj (w : World) :
  post (extcall E c answer inj w) = post (deliver E w).
Proof.
  unfold extcall; rewrite (bind_ok _ _ _ _ (deliver_res w)); simpl.
  destruct (env_fault E (w_clock w)); reflexivity.
Qed.

Lemma emits_extcall {A} p c (answer : nat -> A) inj :
  (forall e, handler_event e = true -> p e = true) ->
  (forall o, p (Ev c o) = true) ->
  emits p (extcall E c answer inj).
Proof.
  intros Hp Hc w; rewrite extcall_evs.
  apply forallb_app2; [apply emits_deliver, Hp|].
  simpl; rewrite Hc; reflexivity.
Qed.

Lemma keeps_extcall {A} I c (answer : nat -> A) inj :
  stable I -> keeps I (extcall E c answer inj).
Proof. intros HI w Hw; rewrite extcall_post; apply keeps_deliver; assumption. Qed.

Lemma now_res tz (w : World) : res (now E tz w) = Ok (env_now E (w_clock w) tz).
Proof. unfold now; rewrite (bind_ok _ _ _ _ (deliver_res w)); reflexivity. Qed.

Lemma now_evs tz (w : World) :
  evs (now E tz w) =
  evs (deliver E w) ++
  [Ev (datetime_now tz) (Returned (VDatetime (env_now E (w_clock w) tz)))].
Proof. unfold now; rewrite (bind_ok _ _ _ _ (deliver_res w)); reflexivity. Qed.

Lemma emits_now p tz :
  (forall e, handler_event e = true -> p e = true) ->
  (forall o, p (Ev (datetime_now tz) o) = true) ->
  emits p (now E tz).
Proof.
  intros Hp Hc w; rewrite now_evs.
  apply forallb_app2; [apply emits_deliver, Hp|].
  simpl; rewrite Hc; reflexivity.
Qed.

Lemma keeps_now I tz : stable I -> keeps I (now E tz).
Proof.
  intros HI w Hw; unfold now; rewrite (bind_ok _ _ _ _ (deliver_res w)); simpl.
  apply keeps_deliver; assumption.
Qed.

(** *** Exceptions come from the environment *)

Lemma faults_total {A} (c : M A) :
  (forall w, exists a, res (c w) = Ok a) -> faults E c.
Proof. intros H w e He; destruct (H w) as [a Ha]; congruence. Qed.

Lemma faults_bind {A B} (c : M A) (k : A -> M B) :
  faults E c -> (forall a, faults E (k a)) -> faults E (bind c k).
Proof.
  intros Hc Hk w e; unfold bind.
  destruct (res (c w)) eqn:Hr; simpl; intros He.
  - exact (Hk _ _ _ He).
  - apply (Hc w); congruence.
Qed.

Lemma faults_extcall {A} c (answer : nat -> A) inj : faults E (extcall E c answer inj).
Proof.
  intros w e; rewrite extcall_res.
  destruct (env_fault E (w_clock w)) eqn:Hf; [|discriminate].
  intros He; exists (w_clock w); congruence.
Qed.

Lemma faults_log l m : faults E (log E l m).
Proof. apply faults_total; intros w; exists tt; apply log_res. Qed.

(** *** The methods of [TimeMonitor] *)

Ltac emits_step :=
  first
    [ apply emits_ret | apply emits_raise | apply emits_get_mon
    | apply emits_log; [sub_events | reflexivity]
    | apply emits_extcall; [sub_events | intros ?; reflexivity]
    | apply emits_now; [sub_events | intros ?; reflexivity]
    | apply emits_bind; [|intros ?]
    | apply emits_emit; reflexivity
    | apply emits_set_running; reflexivity
    | apply emits_set_stdscr; reflexivity
    | match goal with
      | |- emits _ (match ?x with _ => _ end) => destruct x
      end ].

Ltac keeps_step HI :=
  first
    [ apply keeps_ret | apply keeps_raise | apply keeps_get_mon
    | apply keeps_log; exact HI
    | apply keeps_extcall; exact HI
    | apply keeps_now; exact HI
    | apply keeps_bind; [|intros ?]
    | apply keeps_emit
    | apply keeps_set_running_false; exact HI
    | match goal with
      | |- keeps _ (match ?x with _ => _ end) => destruct x
      end ].

Lemma emits_signal_handler signum : emits handler_event (signal_handler signum).
Proof. unfold signal_handler; repeat emits_step. Qed.

Lemma emits_init_curses : emits init_event (init_curses E).
Proof. unfold init_curses, proc; repeat emits_step. Qed.


Lemma emits_format_time : emits draw_event (format_time E).
Proof. unfold format_time; repeat emits_step. Qed.

Lemma emits_render win : emits draw_event (render E win).
Proof.
  unfold render, proc; repeat emits_step.
Qed.

Lemma emits_pause : emits draw_event (pause E).
Proof. unfold pause, proc; repeat emits_step. Qed.

Lemma emits_run_enter : emits enter_event (run_enter E).
Proof.
  unfold run_enter; repeat emits_step.
Qed.

Lemma emits_run_except e : emits except_event (run_except E e).
Proof.
  unfold run_except.
  destruct (is_KeyboardInterrupt e); [|destruct (is_Exception e)];
    repeat emits_step.
Qed.

Lemma emits_run_finally : emits finally_event (run_finally E).
Proof.
  unfold run_finally; repeat emits_step.
Qed.

Lemma keeps_cleanup_curses I : stable I -> keeps I (cleanup_curses E).
Proof. intros HI; unfold cleanup_curses, proc; repeat keeps_step HI. Qed.


Lemma keeps_render I win : stable I -> keeps I (render E win).
Proof. intros HI; unfold render, format_time, proc; repeat keeps_step HI. Qed.

Lemma keeps_frame I : stable I -> keeps I (frame E).
Proof.
  intros HI; unfold frame; repeat keeps_step HI.
Qed.

Lemma keeps_pause I : stable I -> keeps I (pause E).
Proof. intros HI; unfold pause, proc; repeat keeps_step HI. Qed.

Lemma keeps_iteration I : stable I -> keeps I (iteration E).
Proof.
  intros HI; unfold iteration; repeat keeps_step HI.
Qed.

Lemma bind_evs {A B} (c : M A) (k : A -> M B) (w : World) :
  evs (bind c k w) =
  evs (c w) ++ match res (c w) with
               | Ok a => evs (k a (post (c w)))
               | Raise _ => []
               end.
Proof. unfold bind; destruct (res (c w)); simpl; [|rewrite app_nil_r]; reflexivity. Qed.

Lemma bind_res {A B} (c : M A) (k : A -> M B) (w : World) :
  res (bind c k w) =
  match res (c w) with
  | Ok a => res (k a (post (c w)))
  | Raise e => Raise e
  end.
Proof. unfold bind; destruct (res (c w)); reflexivity. Qed.

Lemma bind_post {A B} (c : M A) (k : A -> M B) (w : World) :
  post (bind c k w) =
  match res (c w) with
  | Ok a => post (k a (post (c w)))
  | Raise e => post (c w)
  end.
Proof. unfold bind; destruct (res (c w)); reflexivity. Qed.

(** *** One pass through the loop body *)

Lemma frame_polled (w : World) (win : window) :
  stdscr (w_mon w) = Some win -> frame E w = polled E win w.
Proof.
  intros H; unfold frame; unfold bind at 1; simpl; rewrite H.
  fold (polled E win); destruct (polled E win w); reflexivity.
Qed.

Lemma emits_polled win : emits loop_event (polled E win).
Proof.
  unfold polled; repeat emits_step.
Qed.

Lemma no_quit_poll (tr : trace) :
  forallb draw_event tr = true -> existsb is_quit_poll tr = false.
Proof.
  intros H; apply existsb_none; revert H; apply forallb_weaken; sub_events.
Qed.

Lemma no_poll (tr : trace) :
  forallb draw_event tr = true -> existsb is_poll tr = false.
Proof.
  intros H; apply existsb_none; revert H; apply forallb_weaken; sub_events.
Qed.

Lemma draw_of_handler (e : event) : handler_event e = true -> draw_event e = true.
Proof. revert e; sub_events. Qed.

Lemma getch_quit_poll win (w : World) :
  existsb is_quit_poll (evs (extcall E (win_getch win) (env_getch E) VInt w)) =
  match res (extcall E (win_getch win) (env_getch E) VInt w) with
  | Ok key => is_quit_key key
  | Raise _ => false
  end.
Proof.
  rewrite extcall_evs, extcall_res, existsb_app.
  rewrite (no_quit_poll (evs (deliver E w)))
    by (apply emits_deliver, draw_of_handler).
  destruct (env_fault E (w_clock w)); simpl; [|rewrite orb_false_r]; reflexivity.
Qed.

Lemma getch_quit_is_final win (w : World) :
  quit_is_final (evs (extcall E (win_getch win) (env_getch E) VInt w)) = true.
Proof.
  rewrite extcall_evs; apply quit_is_final_app.
  - apply quit_is_final_no_quit, no_quit_poll, emits_deliver, draw_of_handler.
  - destruct (env_fault E (w_clock w)); simpl; [reflexivity|].
    destruct (is_quit_key _); reflexivity.
  - left; apply no_quit_poll, emits_deliver, draw_of_handler.
Qed.

Lemma not_frame_no_quit (tr : trace) :
  forallb (fun x => negb (is_frame_call x)) tr = true ->
  existsb is_quit_poll tr = false.
Proof.
  intros H; apply existsb_none; revert H; apply forallb_weaken; sub_events.
Qed.

Lemma emits_quit_branch :
  emits (fun x => negb (is_frame_call x)) (log E INFO MsgUserQuit ;;; ret Break).
Proof. repeat emits_step. Qed.

Lemma polled_quit_is_final win (w : World) :
  quit_is_final (evs (polled E win w)) = true /\
  (res (polled E win w) = Ok Next -> existsb is_quit_poll (evs (polled E win w)) = false).
Proof.
  unfold polled; rewrite bind_evs, bind_res.
  pose proof (getch_quit_poll win w) as Hq.
  pose proof (getch_quit_is_final win w) as Hf.
  destruct (res (extcall E (win_getch win) (env_getch E) VInt w)) as [key|e].
  - destruct (is_quit_key key).
    + split.
      * apply quit_is_final_app; trivial.
        -- apply quit_is_final_no_quit, not_frame_no_quit, emits_quit_branch.
        -- right; apply emits_quit_branch.
      * rewrite bind_res, log_res; discriminate.
    + assert (existsb is_quit_poll
                (evs ((render E win ;;; ret Next)
                        (post (extcall E (win_getch win) (env_getch E) VInt w))))
              = false) as Hr.
      { apply no_quit_poll, emits_bind; [apply emits_render|intros; apply emits_ret]. }
      split.
      * apply quit_is_final_no_quit; rewrite existsb_app, Hq, Hr; reflexivity.
      * intros _; rewrite existsb_app, Hq, Hr; reflexivity.
  - rewrite app_nil_r; split; [exact Hf|discriminate].
Qed.

Lemma polled_poll_before_render win (w : World) :
  poll_before_render (evs (polled E win w)) = true /\
  existsb is_poll (evs (polled E win w)) = true.
Proof.
  unfold polled; rewrite bind_evs, extcall_evs, <- !app_assoc.
  assert (forallb (fun e => negb (is_render e)) (evs (deliver E w)) = true) as Hd.
  { apply emits_deliver; sub_events. }
  split.
  - apply poll_before_render_app; [apply poll_before_render_quiet, Hd|].
    right; reflexivity.
  - rewrite existsb_app; simpl; apply orb_true_r.
Qed.

Lemma iteration_polled (w : World) (win : window) :
  stdscr (w_mon w) = Some win ->
  iteration E w = bind (polled E win) (after_frame E) w.
Proof.
  intros H; unfold iteration, bind; rewrite (frame_polled w win H); reflexivity.
Qed.

Lemma emits_after_frame fl : emits draw_event (after_frame E fl).
Proof. destruct fl; unfold after_frame, pause, proc; repeat emits_step. Qed.

Lemma after_frame_next fl (w : World) :
  res (after_frame E fl w) = Ok Next -> fl = Next.
Proof. destruct fl; [discriminate|reflexivity]. Qed.

Section Iteration.

Variables (w : World) (win : window).
Hypothesis Hwin : stdscr (w_mon w) = Some win.

Lemma iteration_events : forallb loop_event (evs (iteration E w)) = true.
Proof.
  rewrite (iteration_polled w win Hwin).
  apply emits_bind; [apply emits_polled|].
  intros fl; eapply emits_weaken; [|apply emits_after_frame]; sub_events.
Qed.

Lemma iteration_next :
  res (iteration E w) = Ok Next -> res (polled E win w) = Ok Next.
Proof.
  rewrite (iteration_polled w win Hwin), bind_res.
  destruct (res (polled E win w)) as [fl|e]; [|discriminate].
  intros H; apply after_frame_next in H; congruence.
Qed.

Lemma iteration_quit_is_final :
  quit_is_final (evs (iteration E w)) = true /\
  (res (iteration E w) = Ok Next ->
   existsb is_quit_poll (evs (iteration E w)) = false).
Proof.
  rewrite (iteration_polled w win Hwin), bind_evs, bind_res.
  destruct (polled_quit_is_final win w) as [Hf Hq].
  destruct (res (polled E win w)) as [[|]|e].
  - simpl; rewrite app_nil_r; split; [exact Hf|discriminate].
  - specialize (Hq eq_refl).
    assert (existsb is_quit_poll (evs (after_frame E Next (post (polled E win w))))
            = false) as Ha by apply no_quit_poll, emits_after_frame.
    split.
    + apply quit_is_final_app; auto using quit_is_final_no_quit.
    + intros _; rewrite existsb_app, Hq, Ha; reflexivity.
  - rewrite app_nil_r; split; [exact Hf|discriminate].
Qed.

Lemma iteration_poll_before_render :
  poll_before_render (evs (iteration E w)) = true /\
  existsb is_poll (evs (iteration E w)) = true.
Proof.
  rewrite (iteration_polled w win Hwin), bind_evs.
  destruct (polled_poll_before_render win w) as [Hp He].
  split.
  - apply poll_before_render_app; auto.
  - rewrite existsb_app, He; reflexivity.
Qed.

Lemma iteration_stdscr : stdscr (w_mon (post (iteration E w))) = Some win.
Proof.
  apply (keeps_iteration (fun w' => stdscr (w_mon w') = Some win)); [|exact Hwin].
  intros w' H n; split; exact H.
Qed.

End Iteration.

(** *** The loop *)

(** Induction over the iterations of a loop that terminates: [T] holds of
    the events of the loop when it holds of no events, of a last iteration,
    and is kept by putting a continuing iteration in front. *)
Lemma loop_rule (I : World -> Prop) (T : trace -> Prop) :
  T [] ->
  (forall w, I w -> running (w_mon w) = true ->
     I (post (iteration E w)) /\
     match res (iteration E w) with
     | Ok Next => forall tr, T tr -> T (evs (iteration E w) ++ tr)
     | _ => T (evs (iteration E w))
     end) ->
  forall fuel w o, I w -> loop E fuel w = Some o -> T (evs o) /\ I (post o).
Proof.
  intros Hnil Hstep; induction fuel as [|f IH]; intros w o Hw; simpl; [discriminate|].
  destruct (running (w_mon w)) eqn:Hrun.
  - destruct (Hstep w Hw Hrun) as [HI HT].
    destruct (res (iteration E w)) as [[|]|e].
    + intros [= <-]; simpl; auto.
    + destruct (loop E f (post (iteration E w))) as [o'|] eqn:Hl; [|discriminate].
      intros [= <-]; simpl.
      destruct (IH _ _ HI Hl) as [HT' HI']; auto.
    + intros [= <-]; simpl; auto.
  - intros [= <-]; simpl; auto.
Qed.

Section Loop.

Variables (win : window) (fuel : nat) (w : World) (o : Out unit).
Hypothesis Hwin : stdscr (w_mon w) = Some win.
Hypothesis Hloop : loop E fuel w = Some o.

Lemma loop_events : forallb loop_event (evs o) = true.
Proof.
  refine (proj1 (loop_rule (fun w' => stdscr (w_mon w') = Some win)
                           (fun tr => forallb loop_event tr = true)
                           eq_refl _ fuel w o Hwin Hloop)).
  intros w' Hw' _; split; [apply (iteration_stdscr w' win Hw')|].
  pose proof (iteration_events w' win Hw') as He.
  destruct (res (iteration E w')) as [[|]|e]; auto using forallb_app2.
Qed.

Lemma loop_quit_is_final : quit_is_final (evs o) = true.
Proof.
  refine (proj1 (loop_rule (fun w' => stdscr (w_mon w') = Some win)
                           (fun tr => quit_is_final tr = true)
                           eq_refl _ fuel w o Hwin Hloop)).
  intros w' Hw' _; split; [apply (iteration_stdscr w' win Hw')|].
  destruct (iteration_quit_is_final w' win Hw') as [Hf Hq].
  destruct (res (iteration E w')) as [[|]|e]; auto.
  intros tr Htr; apply quit_is_final_app; auto.
Qed.

Lemma loop_poll_before_render : poll_before_render (evs o) = true.
Proof.
  refine (proj1 (loop_rule (fun w' => stdscr (w_mon w') = Some win)
                           (fun tr => poll_before_render tr = true)
                           eq_refl _ fuel w o Hwin Hloop)).
  intros w' Hw' _; split; [apply (iteration_stdscr w' win Hw')|].
  destruct (iteration_poll_before_render w' win Hw') as [Hp He].
  destruct (res (iteration E w')) as [[|]|e]; auto.
  intros tr _; apply poll_before_render_app; auto.
Qed.

End Loop.

(** *** Set-up and tear-down *)

Lemma stable_stdscr (s : option window) :
  stable (fun w => stdscr (w_mon w) = s).
Proof. intros w H n; split; exact H. Qed.

Lemma stable_stopped : stable (fun w => running (w_mon w) = false).
Proof. intros w H n; split; [exact H|reflexivity]. Qed.

Lemma stable_handler (b : bool) : stable (fun w => w_handler w = b).
Proof. intros w H n; split; exact H. Qed.

Lemma init_curses_ok (w : World) :
  res (init_curses E w) = Ok tt ->
  exists win, stdscr (w_mon (post (init_curses E w))) = Some win.
Proof.
  unfold init_curses.
  rewrite bind_res, bind_post, log_res, bind_res, bind_post.
  destruct (res (extcall E curses_initscr (env_initscr E) VWindow
                         (post (log E DEBUG MsgInitCurses w)))) as [s|e];
    [|discriminate].
  rewrite bind_res, bind_post.
  change (res (set_stdscr s ?x)) with (@Ok unit tt); cbv iota.
  destruct s as [win|].
  - intros _; exists win.
    match goal with
    | |- stdscr (w_mon (post (?c ?w'))) = _ =>
        assert (keeps (fun x => stdscr (w_mon x) = Some win) c) as K
          by (unfold proc; repeat keeps_step (stable_stdscr (Some win)));
        apply K; reflexivity
    end.
  - rewrite bind_res, log_res; discriminate.
Qed.

Lemma cleanup_curses_count (w : World) :
  count is_teardown (evs (cleanup_curses E w)) = 1%nat.
Proof.
  unfold cleanup_curses; rewrite bind_evs, log_res, log_evs, !count_app.
  rewrite (count_none is_teardown (evs (deliver E w)))
    by (apply emits_deliver; sub_events).
  match goal with
  | |- context [evs (?c ?w')] =>
      assert (emits (fun e => negb (is_teardown e)) c) as K
        by (unfold proc; repeat emits_step);
      rewrite (count_none is_teardown (evs (c w')) (K w'))
  end.
  reflexivity.
Qed.

Lemma run_finally_count (w : World) :
  count is_teardown (evs (run_finally E w)) = 1%nat.
Proof.
  unfold run_finally; rewrite bind_evs; simpl res; cbv iota.
  rewrite bind_evs, !count_app, cleanup_curses_count.
  destruct (res (cleanup_curses E _)); [|reflexivity].
  rewrite log_evs, count_app.
  rewrite (count_none is_teardown (evs (deliver E _)))
    by (apply emits_deliver; sub_events).
  reflexivity.
Qed.

Lemma run_finally_stopped (w : World) :
  running (w_mon (post (run_finally E w))) = false.
Proof.
  unfold run_finally; rewrite bind_post; simpl res; cbv iota.
  match goal with
  | |- running (w_mon (post (?c ?w'))) = _ =>
      assert (keeps (fun x => running (w_mon x) = false) c) as K
        by (repeat keeps_step stable_stopped);
      apply K; reflexivity
  end.
Qed.

Lemma faults_cleanup_curses : faults E (cleanup_curses E).
Proof.
  unfold cleanup_curses, proc.
  repeat first
    [ apply faults_log | apply faults_extcall
    | apply faults_bind; [|intros ?]
    | apply faults_total; intros ?; eexists; reflexivity
    | match goal with |- faults E (match ?x with _ => _ end) => destruct x end ].
Qed.

Lemma faults_run_finally : faults E (run_finally E).
Proof.
  unfold run_finally.
  repeat first
    [ apply faults_log | apply faults_cleanup_curses
    | apply faults_bind; [|intros ?]
    | apply faults_total; intros ?; eexists; reflexivity ].
Qed.

Lemma blames_total {A} p (c : M A) :
  (forall w, exists a, res (c w) = Ok a) -> blames p c.
Proof. intros H w e He; destruct (H w) as [a Ha]; congruence. Qed.

Lemma blames_bind {A B} p (c : M A) (k : A -> M B) :
  blames p c -> (forall a, blames p (k a)) -> blames p (bind c k).
Proof.
  intros Hc Hk w e; rewrite bind_res, bind_evs.
  destruct (res (c w)) as [a|e'] eqn:Hr.
  - intros He; destruct (Hk a _ _ He) as (cl & tr & Hp & ->).
    exists cl, (evs (c w) ++ tr); split; [exact Hp|apply app_assoc].
  - intros [= <-]; destruct (Hc w e' Hr) as (cl & tr & Hp & ->).
    exists cl, tr; split; [exact Hp|apply app_nil_r].
Qed.

Lemma blames_extcall {A} (p : call -> bool) c (answer : nat -> A) inj :
  p c = true -> blames p (extcall E c answer inj).
Proof.
  intros Hp w e; rewrite extcall_res, extcall_evs.
  destruct (env_fault E (w_clock w)) as [e'|]; [|discriminate].
  intros [= <-]; exists c, (evs (deliver E w)); auto.
Qed.

Lemma blames_cleanup_curses : blames is_restore_call (cleanup_curses E).
Proof.
  unfold cleanup_curses, proc.
  repeat first
    [ apply blames_extcall; reflexivity
    | apply blames_total; intros ?; eexists; solve [apply log_res | reflexivity]
    | apply blames_bind; [|intros ?]
    | match goal with |- blames _ (match ?x with _ => _ end) => destruct x end ].
Qed.

(** When the [finally] clause raises, a call of the tear-down raised, and
    nothing was done after it. *)
Lemma blames_run_finally : blames is_restore_call (run_finally E).
Proof.
  unfold run_finally.
  repeat first
    [ apply blames_cleanup_curses
    | apply blames_total; intros ?; eexists; solve [apply log_res | reflexivity]
    | apply blames_bind; [|intros ?] ].
Qed.

(** *** The [try] statement *)

Lemma run_try_cases (fuel : nat) (w : World) (o1 : Out unit) :
  run_try E fuel w = Some o1 ->
  (exists e,
     res (init_curses E w) = Raise e /\
     o1 = mkOut (Raise e) (post (init_curses E w)) (evs (init_curses E w))) \/
  (exists win ol,
     res (init_curses E w) = Ok tt /\
     stdscr (w_mon (post (init_curses E w))) = Some win /\
     loop E fuel (post (init_curses E w)) = Some ol /\
     o1 = mkOut (res ol) (post ol) (evs (init_curses E w) ++ evs ol)).
Proof.
  unfold run_try.
  destruct (res (init_curses E w)) as [[]|e] eqn:Hi.
  - destruct (loop E fuel (post (init_curses E w))) as [ol|] eqn:Hl; [|discriminate].
    intros [= <-]; right.
    destruct (init_curses_ok w Hi) as [win Hwin]; exists win, ol; auto.
  - intros [= <-]; left; exists e; auto.
Qed.

Section Try.

Variables (fuel : nat) (w : World) (o1 : Out unit).
Hypothesis Htry : run_try E fuel w = Some o1.

Lemma run_try_events : forallb try_event (evs o1) = true.
Proof.
  destruct (run_try_cases _ _ _ Htry) as [(e & _ & ->)|(win & ol & _ & Hw & Hl & ->)];
    simpl.
  - eapply forallb_weaken; [|apply emits_init_curses].
    intros e' He; unfold try_event; rewrite He; reflexivity.
  - apply forallb_app2.
    + eapply forallb_weaken; [|apply emits_init_curses].
      intros e' He; unfold try_event; rewrite He; reflexivity.
    + eapply forallb_weaken; [|apply (loop_events win _ _ _ Hw Hl)].
      intros e' He; unfold try_event; rewrite He; apply orb_true_r.
Qed.

Lemma init_no_quit_poll : existsb is_quit_poll (evs (init_curses E w)) = false.
Proof.
  apply existsb_none; eapply forallb_weaken; [|apply emits_init_curses]; sub_events.
Qed.

Lemma init_no_render :
  forallb (fun e => negb (is_render e)) (evs (init_curses E w)) = true.
Proof. eapply forallb_weaken; [|apply emits_init_curses]; sub_events. Qed.

Lemma init_no_poll : existsb is_poll (evs (init_curses E w)) = false.
Proof.
  apply existsb_none; eapply forallb_weaken; [|apply emits_init_curses]; sub_events.
Qed.

Lemma run_try_quit_is_final : quit_is_final (evs o1) = true.
Proof.
  destruct (run_try_cases _ _ _ Htry) as [(e & _ & ->)|(win & ol & _ & Hw & Hl & ->)];
    simpl.
  - apply quit_is_final_no_quit, init_no_quit_poll.
  - apply quit_is_final_app.
    + apply quit_is_final_no_quit, init_no_quit_poll.
    + apply (loop_quit_is_final win _ _ _ Hw Hl).
    + left; apply init_no_quit_poll.
Qed.

End Try.

Lemma poll_before_render_prefix (l1 l2 : trace) :
  forallb (fun e => negb (is_render e)) l1 = true ->
  poll_before_render l2 = true ->
  poll_before_render (l1 ++ l2) = true.
Proof.
  induction l1 as [|e t IH]; simpl; intros H1 H2; [exact H2|].
  apply andb_true_iff in H1 as [He Ht].
  destruct (is_poll e); [reflexivity|]; rewrite He; simpl; auto.
Qed.

Lemma poll_before_render_suffix (l1 l2 : trace) :
  poll_before_render l1 = true ->
  forallb (fun e => negb (is_render e)) l2 = true ->
  poll_before_render (l1 ++ l2) = true.
Proof.
  intros H1 H2; apply poll_before_render_app; [exact H1|].
  right; apply poll_before_render_quiet, H2.
Qed.

Lemma run_try_poll_before_render (fuel : nat) (w : World) (o1 : Out unit) :
  run_try E fuel w = Some o1 -> poll_before_render (evs o1) = true.
Proof.
  intros Htry.
  destruct (run_try_cases _ _ _ Htry) as [(e & _ & ->)|(win & ol & _ & Hw & Hl & ->)];
    simpl.
  - apply poll_before_render_quiet, init_no_render.
  - apply poll_before_render_prefix; [apply init_no_render|].
    apply (loop_poll_before_render win _ _ _ Hw Hl).
Qed.

(** *** [run] *)

Lemma run_caught_res (o1 : Out unit) :
  res (run_caught E o1) =
  match res o1 with
  | Ok _ => res o1
  | Raise e => if is_KeyboardInterrupt e then Ok tt else Raise e
  end.
Proof.
  unfold run_caught, run_except; destruct (res o1) as [[]|e] eqn:Hr; [exact Hr|].
  simpl; destruct (is_KeyboardInterrupt e); [apply log_res|].
  destruct (is_Exception e); [|reflexivity].
  rewrite bind_res, log_res; reflexivity.
Qed.

Lemma run_caught_evs (o1 : Out unit) :
  exists tx, evs (run_caught E o1) = evs o1 ++ tx /\
             forallb except_event tx = true.
Proof.
  unfold run_caught; destruct (res o1) as [[]|e].
  - exists []; rewrite app_nil_r; auto.
  - exists (evs (run_except E e (post o1))); split; [reflexivity|].
    apply emits_run_except.
Qed.

Lemma run_cases (fuel : nat) (w : World) (o : Out unit) :
  run E fuel w = Some o ->
  exists o1,
    run_try E fuel (post (run_enter E w)) = Some o1 /\
    evs o = evs (run_enter E w) ++ evs (run_caught E o1) ++
            evs (run_finally E (post (run_caught E o1))) /\
    post o = post (run_finally E (post (run_caught E o1))) /\
    res o = match res (run_finally E (post (run_caught E o1))) with
            | Ok _ => res (run_caught E o1)
            | Raise e => Raise e
            end.
Proof.
  unfold run.
  destruct (run_try E fuel (post (run_enter E w))) as [o1|]; [|discriminate].
  intros [= <-]; exists o1; split; [reflexivity|].
  unfold finally.
  destruct (res (run_finally E (post (run_caught E o1)))); simpl; auto.
Qed.

Lemma suffix_of_tail (p : event -> bool) (l1 l2 pre post : trace) (x : event) :
  l1 ++ l2 = pre ++ x :: post ->
  forallb (fun e => negb (p e)) l1 = true -> p x = true ->
  exists mid, l2 = mid ++ x :: post.
Proof.
  revert pre; induction l1 as [|a t IH]; simpl; intros pre Heq Hl Hx.
  - exists pre; exact Heq.
  - apply andb_true_iff in Hl as [Ha Ht].
    destruct pre as [|b pre]; simpl in Heq; injection Heq as -> Heq.
    + rewrite Hx in Ha; discriminate.
    + eauto.
Qed.

Lemma forallb_suffix (p : event -> bool) (mid post : trace) (x : event) :
  forallb p (mid ++ x :: post) = true -> forallb p post = true.
Proof.
  rewrite forallb_app; simpl; intros H.
  apply andb_true_iff in H as [_ H]; apply andb_true_iff in H; tauto.
Qed.

Section Run.

Variables (fuel : nat) (w : World) (o : Out unit).
Hypothesis Hrun : run E fuel w = Some o.

Lemma run_before_finally (o1 : Out unit) :
  run_try E fuel (post (run_enter E w)) = Some o1 ->
  forallb (fun e => enter_event e || try_event e || except_event e)
          (evs (run_enter E w) ++ evs (run_caught E o1)) = true.
Proof.
  intros Htry; destruct (run_caught_evs o1) as (tx & -> & Hx).
  repeat apply forallb_app2.
  - eapply forallb_weaken; [|apply emits_run_enter].
    intros e He; rewrite He; reflexivity.
  - eapply forallb_weaken; [|apply (run_try_events _ _ _ Htry)].
    intros e He; rewrite He, orb_true_r; reflexivity.
  - revert Hx; apply forallb_weaken.
    intros e He; rewrite He, orb_true_r; reflexivity.
Qed.

Lemma run_stopped : running (w_mon (post o)) = false.
Proof.
  destruct (run_cases _ _ _ Hrun) as (o1 & _ & _ & -> & _).
  apply run_finally_stopped.
Qed.

Lemma run_count_teardown : count is_teardown (evs o) = 1%nat.
Proof.
  destruct (run_cases _ _ _ Hrun) as (o1 & Htry & -> & _ & _).
  rewrite app_assoc, count_app, run_finally_count.
  rewrite count_none; [reflexivity|].
  generalize (run_before_finally o1 Htry); apply forallb_weaken.
  intros e; unfold try_event; event_cases e; simpl; intros He;
    solve [reflexivity | discriminate He].
Qed.

Lemma run_after_teardown (pre post : trace) (x : event) :
  evs o = pre ++ x :: post -> is_teardown x = true ->
  forallb finally_event post = true.
Proof.
  destruct (run_cases _ _ _ Hrun) as (o1 & Htry & -> & _ & _).
  rewrite app_assoc; intros Heq Hx.
  destruct (suffix_of_tail is_teardown _ _ _ _ _ Heq) as [mid Hmid]; trivial.
  - generalize (run_before_finally o1 Htry); apply forallb_weaken.
    intros e; unfold try_event; event_cases e; simpl; intros He;
      solve [reflexivity | discriminate He].
  - apply (forallb_suffix _ mid post x); rewrite <- Hmid.
    apply emits_run_finally.
Qed.

Lemma run_finally_completes (w' : World) :
  res (run_finally E w') = Ok tt ->
  exists tr, evs (run_finally E w') = tr ++ [Log INFO MsgShutdownComplete].
Proof.
  unfold run_finally; rewrite !bind_res, !bind_evs.
  change (res (set_running false w')) with (@Ok unit tt); cbv iota.
  destruct (res (cleanup_curses E (post (set_running false w'))));
    [|discriminate].
  intros _; rewrite log_evs; eexists; rewrite !app_assoc; reflexivity.
Qed.

Lemma run_raises (o1 : Out unit) (e : exn) :
  run_try E fuel (post (run_enter E w)) = Some o1 ->
  res o1 = Raise e -> is_KeyboardInterrupt e = false ->
  (res o = Raise e /\
   exists tr, evs o = tr ++ [Log INFO MsgShutdownComplete]) \/
  (exists e' n, env_fault E n = Some e' /\ res o = Raise e').
Proof.
  intros Htry Hr Hk.
  destruct (run_cases _ _ _ Hrun) as (o1' & Htry' & Hevs & _ & Hres).
  rewrite Htry in Htry'; injection Htry' as <-.
  rewrite run_caught_res, Hr, Hk in Hres.
  destruct (res (run_finally E (post (run_caught E o1)))) as [[]|e'] eqn:Hf.
  - left; split; [exact Hres|].
    destruct (run_finally_completes _ Hf) as [tr Htr].
    rewrite Hevs, Htr; eexists; rewrite !app_assoc; reflexivity.
  - right; destruct (faults_run_finally _ _ Hf) as [n Hn]; eauto.
Qed.

(** The two ways the [finally] clause can end, and what the caller gets in
    each. *)
Lemma run_after_try (o1 : Out unit) :
  run_try E fuel (post (run_enter E w)) = Some o1 ->
  (res (run_finally E (post (run_caught E o1))) = Ok tt /\
   res o = res (run_caught E o1) /\
   exists tr, evs o = tr ++ [Log INFO MsgShutdownComplete]) \/
  (exists e' c tr,
     is_restore_call c = true /\
     res (run_finally E (post (run_caught E o1))) = Raise e' /\
     res o = Raise e' /\
     evs o = tr ++ [Ev c (Raised e')]).
Proof.
  intros Htry.
  destruct (run_cases _ _ _ Hrun) as (o1' & Htry' & Hevs & _ & Hres).
  rewrite Htry in Htry'; injection Htry' as <-.
  destruct (res (run_finally E (post (run_caught E o1)))) as [[]|e'] eqn:Hf.
  - left; split; [reflexivity|]; split; [exact Hres|].
    destruct (run_finally_completes _ Hf) as [tr Htr].
    rewrite Hevs, Htr; eexists; rewrite !app_assoc; reflexivity.
  - right; destruct (blames_run_finally _ _ Hf) as (c & tr & Hc & Htr).
    exists e', c; eexists; split; [exact Hc|]; split; [reflexivity|].
    split; [exact Hres|].
    rewrite Hevs, Htr, !app_assoc; reflexivity.
Qed.

End Run.

(** ** [run]: tear-down, failure to open, quit key, the flag *)

(** C1: in every run that ends -- by the quit key, by the flag being cleared,
    or by an exception raised in a frame -- [cleanup_curses] is invoked
    exactly once, and nothing but the [finally] clause happens after it has
    started.  When the [try] block raised an exception [e] that is not the
    interrupt, the caller of [run] gets [e], and gets it only after the
    [finally] clause has run to its end (it returned, and the last event of
    the run is the closing record of line 120).  The one other outcome is
    that the [finally] clause itself raised: then one of the four curses
    calls of [cleanup_curses] raised, that call is the last event of the
    run, and what it raised is what the caller gets. *)
Theorem run_tears_down_exactly_once (fuel : nat) (w : World) (o : Out unit) :
  run E fuel w = Some o ->
  count is_teardown (evs o) = 1%nat /\
  (forall pre x post,
     evs o = pre ++ x :: post -> is_teardown x = true ->
     forallb finally_event post = true) /\
  (forall o1 e,
     run_try E fuel (post (run_enter E w)) = Some o1 ->
     res o1 = Raise e -> is_KeyboardInterrupt e = false ->
     (res (run_finally E (post (run_caught E o1))) = Ok tt /\
      res o = Raise e /\
      exists tr, evs o = tr ++ [Log INFO MsgShutdownComplete]) \/
     (exists e' c tr,
        is_restore_call c = true /\
        res (run_finally E (post (run_caught E o1))) = Raise e' /\
        res o = Raise e' /\
        evs o = tr ++ [Ev c (Raised e')])).
Proof.
  intros Hrun; split; [|split].
  - exact (run_count_teardown fuel w o Hrun).
  - intros pre x post; exact (run_after_teardown fuel w o Hrun pre post x).
  - intros o1 e Htry Hr Hk.
    pose proof (run_after_try fuel w o Hrun o1 Htry) as H.
    rewrite run_caught_res, Hr, Hk in H; exact H.
Qed.

(** C6: when [init_curses] fails with an exception [e] (not the interrupt),
    [run] ends whatever the fuel, no call of the loop body is ever made (no
    poll, no clock or size query, no drawing, no sleep), [cleanup_curses] is
    invoked once, and the caller gets [e] after the tear-down -- or, if a
    curses call of the tear-down raised, that exception. *)
Theorem init_failure_propagates (fuel : nat) (w : World) (e : exn) :
  res (init_curses E (post (run_enter E w))) = Raise e ->
  is_KeyboardInterrupt e = false ->
  exists o,
    run E fuel w = Some o /\
    forallb (fun x => negb (is_frame_call x)) (evs o) = true /\
    count is_teardown (evs o) = 1%nat /\
    ((res o = Raise e /\
      exists tr, evs o = tr ++ [Log INFO MsgShutdownComplete]) \/
     (exists e' n, env_fault E n = Some e' /\ res o = Raise e')).
Proof.
  intros Hinit Hk.
  assert (run_try E fuel (post (run_enter E w)) =
          Some (mkOut (Raise e) (post (init_curses E (post (run_enter E w))))
                      (evs (init_curses E (post (run_enter E w)))))) as Htry.
  { unfold run_try; rewrite Hinit; reflexivity. }
  destruct (run E fuel w) as [o|] eqn:Hrun;
    [|unfold run in Hrun; rewrite Htry in Hrun; discriminate].
  exists o; split; [reflexivity|]; split; [|split].
  - destruct (run_cases _ _ _ Hrun) as (o1 & Htry' & -> & _ & _).
    rewrite Htry in Htry'; injection Htry' as <-.
    destruct (run_caught_evs
                (mkOut (Raise e) (post (init_curses E (post (run_enter E w))))
                       (evs (init_curses E (post (run_enter E w))))))
      as (tx & -> & Hx); simpl.
    repeat apply forallb_app2.
    + eapply forallb_weaken; [|apply emits_run_enter]; sub_events.
    + eapply forallb_weaken; [|apply emits_init_curses]; sub_events.
    + revert Hx; apply forallb_weaken; sub_events.
    + eapply forallb_weaken; [|apply emits_run_finally]; sub_events.
  - exact (run_count_teardown fuel w o Hrun).
  - exact (run_raises fuel w o Hrun _ e Htry eq_refl Hk).
Qed.

(** C3: in every run that ends, [running] is false at the end, and after a
    poll that returned [q] or [Q] no call of the loop body is made any more:
    no drawing of that frame, no further poll, no sleep.  In particular,
    when the first poll of the run returns the quit key, the whole run
    makes no clear, write or refresh call. *)
Theorem quit_key_stops_before_render (fuel : nat) (w : World) (o : Out unit) :
  run E fuel w = Some o ->
  running (w_mon (post o)) = false /\
  (forall pre x post,
     evs o = pre ++ x :: post -> is_quit_poll x = true ->
     forallb (fun e => negb (is_frame_call e)) post = true) /\
  (forall pre x post,
     evs o = pre ++ x :: post -> is_quit_poll x = true ->
     forallb (fun e => negb (is_poll e)) pre = true ->
     forallb (fun e => negb (is_render e)) (evs o) = true).
Proof.
  intros Hrun; split; [exact (run_stopped fuel w o Hrun)|].
  destruct (run_cases _ _ _ Hrun) as (o1 & Htry & Hevs & _ & _).
  destruct (run_caught_evs o1) as (tx & Hc & Hx).
  rewrite Hc in Hevs.
  set (fin := evs (run_finally E (post (run_caught E o1)))) in *.
  assert (forallb (fun e => negb (is_frame_call e)) (tx ++ fin) = true) as Htail.
  { apply forallb_app2.
    - revert Hx; apply forallb_weaken; sub_events.
    - eapply forallb_weaken; [|apply emits_run_finally]; sub_events. }
  assert (forallb (fun e => negb (is_frame_call e)) (evs (run_enter E w)) = true)
    as Hhead.
  { eapply forallb_weaken; [|apply emits_run_enter]; sub_events. }
  assert (quit_is_final (evs o) = true) as Hq.
  { rewrite Hevs, <- app_assoc.
    apply quit_is_final_app.
    - apply quit_is_final_no_quit, not_frame_no_quit, Hhead.
    - apply quit_is_final_app; auto.
      + apply (run_try_quit_is_final _ _ _ Htry).
      + apply quit_is_final_no_quit, not_frame_no_quit, Htail.
    - left; apply not_frame_no_quit, Hhead. }
  assert (poll_before_render (evs o) = true) as Hp.
  { rewrite Hevs, <- app_assoc.
    apply poll_before_render_prefix.
    - revert Hhead; apply forallb_weaken; sub_events.
    - apply poll_before_render_suffix.
      + apply (run_try_poll_before_render _ _ _ Htry).
      + revert Htail; apply forallb_weaken; sub_events. }
  split.
  - intros pre x post Heq Hx'; rewrite Heq in Hq.
    exact (quit_is_final_split _ _ _ Hq Hx').
  - intros pre x post Heq Hx' Hpre; rewrite Heq in Hq, Hp |- *.
    apply forallb_app2; [exact (poll_before_render_split _ _ Hp Hpre)|].
    simpl; apply andb_true_iff; split.
    + revert Hx'; clear; event_cases x; simpl; intros H;
        solve [reflexivity | discriminate H].
    + generalize (quit_is_final_split _ _ _ Hq Hx'); apply forallb_weaken; sub_events.
Qed.

Lemma not_in_set_true (tr : trace) :
  forallb (fun e => negb (is_set_true e)) tr = true -> ~ In (SetRunning true) tr.
Proof.
  intros H Hin; rewrite forallb_forall in H.
  specialize (H _ Hin); discriminate H.
Qed.

Lemma run_enter_unregistered (w : World) :
  w_handler w = false ->
  evs (run_enter E w) =
  [Log INFO MsgStartLoop; SetRunning true; Register SIGINT; Register SIGTERM].
Proof.
  intros H; unfold run_enter.
  rewrite bind_evs, log_res, log_evs, (deliver_unregistered w H); reflexivity.
Qed.

(** C8: in a run on a monitor whose handler is registered by that run
    (line 76), the assignment of line 75 is the only one that writes [True]
    to [self.running]: every other write -- by the signal handler or by the
    [finally] clause; the quit key only leaves the loop -- writes [False].
    So once [False] has been written, [True] is never written again. *)
Theorem running_is_monotone (fuel : nat) (w : World) (o : Out unit) :
  w_handler w = false ->
  run E fuel w = Some o ->
  (exists rest,
     evs o = Log INFO MsgStartLoop :: SetRunning true :: rest /\
     ~ In (SetRunning true) rest) /\
  (forall pre post,
     evs o = pre ++ SetRunning false :: post -> ~ In (SetRunning true) post) /\
  running (w_mon (post o)) = false.
Proof.
  intros Hh Hrun.
  destruct (run_cases _ _ _ Hrun) as (o1 & Htry & Hevs & _ & _).
  rewrite (run_enter_unregistered w Hh) in Hevs.
  destruct (run_caught_evs o1) as (tx & Hc & Hx).
  set (rest := [Register SIGINT; Register SIGTERM] ++ evs (run_caught E o1) ++
               evs (run_finally E (post (run_caught E o1)))).
  assert (evs o = [Log INFO MsgStartLoop; SetRunning true] ++ rest) as Heq
    by exact Hevs.
  assert (forallb (fun e => negb (is_set_true e)) rest = true) as Hrest.
  { unfold rest; rewrite Hc.
    apply forallb_app2; [|apply forallb_app2; [apply forallb_app2|]].
    - reflexivity.
    - generalize (run_try_events _ _ _ Htry); apply forallb_weaken.
      intros e; unfold try_event; event_cases e; simpl; intros He;
        solve [reflexivity | discriminate He].
    - revert Hx; apply forallb_weaken; sub_events.
    - eapply forallb_weaken; [|apply emits_run_finally]; sub_events. }
  split; [|split].
  - exists rest; split; [exact Heq|apply not_in_set_true, Hrest].
  - intros pre post Hsplit; rewrite Heq in Hsplit.
    destruct (suffix_of_tail is_set_false _ _ _ _ _ Hsplit) as [mid Hmid];
      try reflexivity.
    apply not_in_set_true, (forallb_suffix _ mid post (SetRunning false)).
    rewrite <- Hmid; exact Hrest.
  - exact (run_stopped fuel w o Hrun).
Qed.

(** C10: [init_curses] either raises or leaves a window in [self.stdscr],
    nothing in the loop assigns [self.stdscr], and so the [else] branch of
    line 104 is dead: its record "stdscr is None, cannot continue" occurs in
    no run. *)
Theorem stdscr_none_branch_unreachable (fuel : nat) (w : World) (o : Out unit) :
  run E fuel w = Some o ->
  forallb (fun e => negb (is_stdscr_none e)) (evs o) = true /\
  (forall w', match res (init_curses E w') with
              | Ok _ => stdscr (w_mon (post (init_curses E w'))) <> None
              | Raise _ => True
              end) /\
  (forall w' win, stdscr (w_mon w') = Some win ->
                  stdscr (w_mon (post (iteration E w'))) = Some win).
Proof.
  intros Hrun; split; [|split].
  - destruct (run_cases _ _ _ Hrun) as (o1 & Htry & -> & _ & _).
    rewrite app_assoc; apply forallb_app2.
    + generalize (run_before_finally fuel w o1 Htry); apply forallb_weaken.
      intros e; unfold try_event; event_cases e; simpl; intros He;
        solve [reflexivity | discriminate He].
    + eapply forallb_weaken; [|apply emits_run_finally]; sub_events.
  - intros w'; destruct (res (init_curses E w')) as [[]|e] eqn:Hi; [|exact I].
    destruct (init_curses_ok w' Hi) as [win ->]; discriminate.
  - intros w' win; apply iteration_stdscr.
Qed.

End Facts.

(** ** The signal handler *)

(** C9, as the code has it: the handler hands one record to the logger and
    then clears [self.running]; it makes no external call -- no curses call
    in particular -- and touches nothing else of the monitor.  This is what
    a call boundary runs when a signal arrives and the handler is
    registered, and [setup_signal_handlers] registers it for [SIGINT] and
    [SIGTERM]. *)
Theorem signal_handler_logs_and_clears (E : Env) (signum : Z) (w : World) :
  let o := signal_handler signum w in
  res o = Ok tt /\
  evs o = [Log INFO (MsgReceivedSignal signum); SetRunning false] /\
  forallb (fun e => negb (is_call e)) (evs o) = true /\
  running (w_mon (post o)) = false /\
  stdscr (w_mon (post o)) = stdscr (w_mon w) /\
  update_interval (w_mon (post o)) = update_interval (w_mon w) /\
  w_clock (post o) = w_clock w /\
  evs (deliver E w) =
    match env_signal E (w_clock w), w_handler w with
    | Some s, true => evs (signal_handler (signum_of s) w)
    | _, _ => []
    end /\
  evs (setup_signal_handlers w) = [Register SIGINT; Register SIGTERM] /\
  w_handler (post (setup_signal_handlers w)) = true.
Proof.
  cbv zeta; repeat split.
  rewrite deliver_evs.
  destruct (env_signal E (w_clock w)), (w_handler w); reflexivity.
Qed.

(** ** Tear-down twice *)

Section Teardown.

Variable E : Env.

Lemma tty_quiet (tr : trace) :
  forallb (fun e => negb (is_call e)) tr = true ->
  forall t, tty_after t tr = t.
Proof.
  unfold tty_after; induction tr as [|e tr IH]; simpl; intros H t; [reflexivity|].
  apply andb_true_iff in H as [He Ht].
  destruct e; try discriminate He; simpl; auto.
Qed.

Lemma deliver_no_call (w : World) :
  forallb (fun e => negb (is_call e)) (evs (deliver E w)) = true.
Proof.
  rewrite deliver_evs.
  destruct (env_signal E (w_clock w)), (w_handler w); reflexivity.
Qed.

Lemma proc_tty (c : call) (w : World) (t : tty) :
  tty_after t (evs (proc E c w)) =
  match res (proc E c w) with
  | Ok _ => tty_step t (Ev c (Returned VNone))
  | Raise _ => t
  end.
Proof.
  unfold proc; rewrite extcall_evs, extcall_res, tty_after_app.
  rewrite (tty_quiet _ (deliver_no_call w)).
  destruct (env_fault E (w_clock w)); reflexivity.
Qed.

Lemma then_tty (c : call) (k : M unit) (w : World) (t : tty) :
  res ((proc E c ;;; k) w) = Ok tt ->
  res (k (post (proc E c w))) = Ok tt /\
  tty_after t (evs ((proc E c ;;; k) w)) =
  tty_after (tty_step t (Ev c (Returned VNone))) (evs (k (post (proc E c w)))).
Proof.
  rewrite bind_res, bind_evs, tty_after_app, proc_tty.
  destruct (res (proc E c w)); [|discriminate].
  intros H; split; [exact H|reflexivity].
Qed.

Lemma log_stdscr l m (w : World) :
  stdscr (w_mon (post (log E l m w))) = stdscr (w_mon w).
Proof.
  rewrite log_post; unfold deliver.
  destruct (env_signal E (w_clock w)), (w_handler w); reflexivity.
Qed.

Lemma extcall_stdscr {A} c (answer : nat -> A) inj (w : World) :
  stdscr (w_mon (post (extcall E c answer inj w))) = stdscr (w_mon w).
Proof.
  rewrite extcall_post; unfold deliver.
  destruct (env_signal E (w_clock w)), (w_handler w); reflexivity.
Qed.

Lemma cleanup_curses_restore (w : World) :
  cleanup_curses E w = (log E DEBUG MsgCleanup ;;; restore E) w.
Proof. reflexivity. Qed.

Lemma restore_stdscr (w : World) :
  stdscr (w_mon (post (restore E w))) = stdscr (w_mon w).
Proof.
  unfold restore; rewrite bind_post; simpl res; cbv iota.
  change (post (get_mon w)) with w.
  destruct (stdscr (w_mon w)) as [win|] eqn:Hs; [|exact Hs].
  rewrite !bind_post.
  repeat match goal with
         | |- context [match ?r with Ok _ => _ | Raise _ => _ end] => destruct r
         end;
    unfold proc; rewrite ?extcall_stdscr; exact Hs.
Qed.

Lemma restore_tty (w : World) (t : tty) :
  res (restore E w) = Ok tt ->
  tty_after t (evs (restore E w)) =
  match stdscr (w_mon w) with
  | Some _ => restored t
  | None => t
  end.
Proof.
  unfold restore; rewrite bind_res, bind_evs; simpl res; cbv iota.
  change (post (get_mon w)) with w; change (evs (get_mon w)) with (@nil event).
  rewrite app_nil_l.
  destruct (stdscr (w_mon w)) as [win|]; [|reflexivity].
  intros H.
  apply (then_tty _ _ _ t) in H as [H ->].
  apply (then_tty _ _ _ (tty_step t (Ev curses_nocbreak (Returned VNone))))
    in H as [H ->].
  apply (then_tty _ _ _ _) in H as [H ->].
  rewrite proc_tty, H; reflexivity.
Qed.

Lemma cleanup_curses_tty (w : World) (t : tty) :
  res (cleanup_curses E w) = Ok tt ->
  tty_after t (evs (cleanup_curses E w)) =
  match stdscr (w_mon w) with
  | Some _ => restored t
  | None => t
  end.
Proof.
  rewrite cleanup_curses_restore, bind_res, bind_evs, log_res, tty_after_app.
  intros H; rewrite (restore_tty _ _ H), log_stdscr.
  rewrite log_evs, tty_after_app, (tty_quiet _ (deliver_no_call w)); reflexivity.
Qed.

Lemma cleanup_curses_stdscr (w : World) :
  stdscr (w_mon (post (cleanup_curses E w))) = stdscr (w_mon w).
Proof.
  rewrite cleanup_curses_restore, bind_post, log_res, restore_stdscr.
  apply log_stdscr.
Qed.

(** C2: on a monitor whose session was never opened ([self.stdscr] is
    [None]) [cleanup_curses] returns normally and makes no call at all.
    After a tear-down that returned normally, a second one raises nothing
    of its own -- it raises only if a curses call does, so not at all on a
    terminal whose calls succeed -- and when it returns, the settings of
    the terminal are those the first tear-down left.  (The second
    tear-down does issue the four restoring calls again.) *)
Theorem cleanup_curses_idempotent (w : World) :
  (stdscr (w_mon w) = None ->
   res (cleanup_curses E w) = Ok tt /\
   forallb (fun e => negb (is_call e)) (evs (cleanup_curses E w)) = true /\
   forall t, tty_after t (evs (cleanup_curses E w)) = t) /\
  (res (cleanup_curses E w) = Ok tt ->
   let w1 := post (cleanup_curses E w) in
   (forall e, res (cleanup_curses E w1) = Raise e ->
              exists n, env_fault E n = Some e) /\
   ((forall n, env_fault E n = None) -> res (cleanup_curses E w1) = Ok tt) /\
   (res (cleanup_curses E w1) = Ok tt ->
    forall t, tty_after t (evs (cleanup_curses E w) ++ evs (cleanup_curses E w1))
              = tty_after t (evs (cleanup_curses E w)))).
Proof.
  split.
  - intros Hnone.
    assert (res (cleanup_curses E w) = Ok tt) as Hres.
    { rewrite cleanup_curses_restore, bind_res, log_res.
      unfold restore; rewrite bind_res; simpl res; cbv iota.
      change (post (get_mon ?x)) with x; rewrite log_stdscr, Hnone; reflexivity. }
    assert (forall t, tty_after t (evs (cleanup_curses E w)) = t) as Htty.
    { intros t; rewrite (cleanup_curses_tty w t Hres), Hnone; reflexivity. }
    repeat split; trivial.
    rewrite cleanup_curses_restore, bind_evs, log_res, log_evs.
    unfold restore; rewrite bind_evs; simpl res; cbv iota.
    change (post (get_mon ?x)) with x; rewrite log_stdscr, Hnone.
    rewrite !forallb_app, deliver_no_call; reflexivity.
  - intros Hfirst w1; split; [|split].
    + apply faults_cleanup_curses.
    + intros Hquiet.
      destruct (res (cleanup_curses E w1)) as [[]|e] eqn:Hr; [reflexivity|].
      destruct (faults_cleanup_curses E _ _ Hr) as [n Hn]; congruence.
    + intros Hsecond t.
      rewrite tty_after_app, (cleanup_curses_tty w1 _ Hsecond).
      unfold w1; rewrite cleanup_curses_stdscr, (cleanup_curses_tty w t Hfirst).
      destruct (stdscr (w_mon w)); reflexivity.
Qed.

End Teardown.

(** ** The timestamp *)

Lemma length_append (s1 s2 : string) :
  String.length (s1 ++ s2) = (String.length s1 + String.length s2)%nat.
Proof. induction s1 as [|c s1 IH]; simpl; [reflexivity|rewrite IH; reflexivity]. Qed.

Lemma append_empty (s : string) : (s ++ "")%string = s.
Proof. induction s as [|c s IH]; simpl; [reflexivity|rewrite IH; reflexivity]. Qed.

Lemma only_digits_append (s1 s2 : string) :
  only_digits (s1 ++ s2) = only_digits s1 && only_digits s2.
Proof.
  induction s1 as [|c s1 IH]; simpl; [reflexivity|].
  rewrite IH, andb_assoc; reflexivity.
Qed.

Lemma digit_is_digit (n : N) : is_digit (digit n) = true.
Proof.
  unfold is_digit, digit.
  assert (n mod 10 < 10)%N as Hlt by (apply N.mod_lt; discriminate).
  set (r := (n mod 10)%N) in *; clearbody r.
  rewrite N_ascii_embedding by lia.
  apply andb_true_iff; split; apply N.leb_le; lia.
Qed.

Lemma decimal_fuel_digits (fuel : nat) (n : N) :
  only_digits (decimal_fuel fuel n) = true.
Proof.
  revert n; induction fuel as [|f IH]; intros n; simpl; [reflexivity|].
  destruct (n <? 10)%N; simpl.
  - rewrite digit_is_digit; reflexivity.
  - rewrite only_digits_append, IH; simpl; rewrite digit_is_digit; reflexivity.
Qed.

Lemma decimal_fuel_length (fuel k : nat) (n : N) :
  (n < 10 ^ N.of_nat (S k))%N ->
  (String.length (decimal_fuel fuel n) <= S k)%nat.
Proof.
  revert k n; induction fuel as [|f IH]; intros k n Hn; simpl; [lia|].
  destruct (n <? 10)%N eqn:Hlt; simpl; [lia|].
  apply N.ltb_ge in Hlt.
  rewrite length_append; simpl.
  destruct k as [|k].
  - change (10 ^ N.of_nat 1)%N with 10%N in Hn; lia.
  - assert (n / 10 < 10 ^ N.of_nat (S k))%N as Hdiv.
    { apply N.Div0.div_lt_upper_bound.
      rewrite <- N.pow_succ_r', <- Nnat.Nat2N.inj_succ; exact Hn. }
    specialize (IH k _ Hdiv); lia.
Qed.

Lemma zeros_length (k : nat) : String.length (zeros k) = k.
Proof. induction k as [|k IH]; simpl; [reflexivity|rewrite IH; reflexivity]. Qed.

Lemma zeros_digits (k : nat) : only_digits (zeros k) = true.
Proof. induction k as [|k IH]; simpl; [reflexivity|exact IH]. Qed.

(** A field below [10 ^ width] is printed on exactly [width] digits. *)
Lemma field_shape (k : nat) (n : N) :
  (n < 10 ^ N.of_nat (S k))%N ->
  String.length (zfill (S k) (decimal n)) = S k /\
  only_digits (zfill (S k) (decimal n)) = true.
Proof.
  intros Hn; unfold zfill, decimal.
  pose proof (decimal_fuel_length (S (N.to_nat (N.log2 n))) k n Hn) as Hl.
  rewrite length_append, zeros_length, only_digits_append, zeros_digits,
    decimal_fuel_digits.
  split; [lia|reflexivity].
Qed.

(** The fuel is irrelevant once it covers the binary length of the number. *)
Lemma decimal_fuel_enough (f1 f2 : nat) (n : N) :
  (1 <= f1)%nat -> (1 <= f2)%nat ->
  (n < 2 ^ N.of_nat f1)%N -> (n < 2 ^ N.of_nat f2)%N ->
  decimal_fuel f1 n = decimal_fuel f2 n.
Proof.
  revert f2 n; induction f1 as [|a IH]; intros f2 n H1 H2 Hn1 Hn2; [lia|].
  destruct f2 as [|b]; [lia|]; simpl.
  destruct (n <? 10)%N eqn:Hlt; [reflexivity|].
  apply N.ltb_ge in Hlt.
  assert (forall c, (n < 2 ^ N.of_nat (S c))%N ->
                    (1 <= c)%nat /\ (n / 10 < 2 ^ N.of_nat c)%N) as Hstep.
  { intros c Hc; rewrite Nnat.Nat2N.inj_succ, N.pow_succ_r' in Hc; split.
    - destruct c; [|lia]. simpl in Hc; lia.
    - apply N.Div0.div_lt_upper_bound; lia. }
  destruct (Hstep a Hn1) as [Ha Hda]; destruct (Hstep b Hn2) as [Hb Hdb].
  rewrite (IH b (n / 10)%N Ha Hb Hda Hdb); reflexivity.
Qed.

Lemma decimal_fuel_bound (n : N) : (n < 2 ^ N.of_nat (S (N.to_nat (N.log2 n))))%N.
Proof.
  rewrite Nnat.Nat2N.inj_succ, Nnat.N2Nat.id.
  destruct n as [|p]; [reflexivity|].
  apply N.log2_spec; reflexivity.
Qed.

Lemma decimal_small (n : N) : (n < 10)%N -> decimal n = String (digit n) "".
Proof.
  intros H; unfold decimal; simpl.
  apply N.ltb_lt in H; rewrite H; reflexivity.
Qed.

Lemma decimal_step (n : N) :
  (10 <= n)%N -> decimal n = (decimal (n / 10) ++ String (digit n) "")%string.
Proof.
  intros H; unfold decimal at 1; simpl.
  pose proof (decimal_fuel_bound n) as Hb.
  assert ((n <? 10)%N = false) as -> by (apply N.ltb_ge; exact H).
  f_equal; unfold decimal.
  rewrite Nnat.Nat2N.inj_succ, N.pow_succ_r' in Hb.
  apply decimal_fuel_enough.
  - destruct (N.to_nat (N.log2 n)); [|lia]. simpl in Hb; lia.
  - lia.
  - apply N.Div0.div_lt_upper_bound; lia.
  - apply decimal_fuel_bound.
Qed.

(** From 1000 to 9999 a number has four decimal digits. *)
Lemma year_shape (n : N) :
  (1000 <=? n)%N = true -> (n < 10 ^ N.of_nat 4)%N ->
  String.length (decimal n) = 4%nat /\ only_digits (decimal n) = true.
Proof.
  intros Hlo Hhi; apply N.leb_le in Hlo.
  change (10 ^ N.of_nat 4)%N with 10000%N in Hhi.
  split; [|apply decimal_fuel_digits].
  assert (10 <= n / 100)%N as H100
    by (apply N.div_le_lower_bound; [discriminate|lia]).
  assert (n / 1000 < 10)%N as H1000
    by (apply N.Div0.div_lt_upper_bound; lia).
  assert (10 <= n / 10)%N as H10
    by (apply N.div_le_lower_bound; [discriminate|lia]).
  rewrite (decimal_step n) by lia.
  rewrite (decimal_step (n / 10)) by exact H10.
  rewrite N.Div0.div_div; change (10 * 10)%N with 100%N.
  rewrite (decimal_step (n / 100)) by exact H100.
  rewrite N.Div0.div_div; change (100 * 10)%N with 1000%N.
  rewrite (decimal_small (n / 1000)) by exact H1000.
  reflexivity.
Qed.

Lemma strftime_fields (d : datetime) :
  strftime "%Y-%m-%d %H:%M:%S.%f" d =
  (decimal (year d) ++ "-" ++ zfill 2 (decimal (month d)) ++ "-" ++
   zfill 2 (decimal (day d)) ++ " " ++ zfill 2 (decimal (hour d)) ++ ":" ++
   zfill 2 (decimal (minute d)) ++ ":" ++ zfill 2 (decimal (second d)) ++ "." ++
   zfill 6 (decimal (microsecond d)))%string.
Proof.
  rewrite <- (append_empty (zfill 6 (decimal (microsecond d)))); reflexivity.
Qed.

Lemma length2 (s : string) :
  String.length s = 2%nat -> exists a b, s = String a (String b "").
Proof.
  destruct s as [|a [|b [|c s]]]; try discriminate; intros _; eauto.
Qed.

Lemma length4 (s : string) :
  String.length s = 4%nat ->
  exists a b c d, s = String a (String b (String c (String d ""))).
Proof.
  destruct s as [|a [|b [|c [|d [|e s]]]]]; try discriminate; intros _; eauto.
Qed.

Lemma length6 (s : string) :
  String.length s = 6%nat ->
  exists a b c d e f,
    s = String a (String b (String c (String d (String e (String f ""))))).
Proof.
  destruct s as [|a [|b [|c [|d [|e [|f [|g s]]]]]]]; try discriminate.
  intros _; eauto 7.
Qed.

(** The shape of the slice, for fields of the right widths. *)
Lemma timestamp_shape (Y m D H M S f : string) :
  String.length Y = 4%nat -> String.length m = 2%nat ->
  String.length D = 2%nat -> String.length H = 2%nat ->
  String.length M = 2%nat -> String.length S = 2%nat ->
  String.length f = 6%nat ->
  only_digits Y = true -> only_digits m = true -> only_digits D = true ->
  only_digits H = true -> only_digits M = true -> only_digits S = true ->
  only_digits f = true ->
  let s := drop_last 3 (Y ++ "-" ++ m ++ "-" ++ D ++ " " ++ H ++ ":" ++ M ++
                        ":" ++ S ++ "." ++ f)%string in
  s = (Y ++ "-" ++ m ++ "-" ++ D ++ " " ++ H ++ ":" ++ M ++ ":" ++ S ++ "." ++
       substring 0 3 f)%string /\
  String.length s = 23%nat /\
  matches "dddd-dd-dd dd:dd:dd.ddd" s = true /\
  get 4 s = Some "-"%char /\ get 7 s = Some "-"%char /\
  get 10 s = Some " "%char /\
  get 13 s = Some ":"%char /\ get 16 s = Some ":"%char /\
  get 19 s = Some "."%char.
Proof.
  intros HY Hm HD HH HM HS Hf.
  destruct (length4 _ HY) as (y1 & y2 & y3 & y4 & ->).
  destruct (length2 _ Hm) as (m1 & m2 & ->).
  destruct (length2 _ HD) as (d1 & d2 & ->).
  destruct (length2 _ HH) as (h1 & h2 & ->).
  destruct (length2 _ HM) as (n1 & n2 & ->).
  destruct (length2 _ HS) as (s1 & s2 & ->).
  destruct (length6 _ Hf) as (f1 & f2 & f3 & f4 & f5 & f6 & ->).
  simpl only_digits; intros.
  repeat match goal with
         | K : _ && _ = true |- _ => apply andb_true_iff in K as [? ?]
         end.
  cbv zeta; repeat split.
  simpl.
  repeat match goal with
         | K : is_digit ?c = true |- _ => rewrite K; clear K
         end.
  reflexivity.
Qed.

Lemma valid_datetime_bounds (d : datetime) :
  valid_datetime d = true ->
  (year d < 10 ^ N.of_nat 4 /\ month d < 10 ^ N.of_nat 2 /\
   day d < 10 ^ N.of_nat 2 /\ hour d < 10 ^ N.of_nat 2 /\
   minute d < 10 ^ N.of_nat 2 /\ second d < 10 ^ N.of_nat 2 /\
   microsecond d < 10 ^ N.of_nat 6)%N.
Proof.
  unfold valid_datetime; intros H.
  repeat match goal with
         | K : _ && _ = true |- _ => apply andb_true_iff in K as [? ?]
         end.
  repeat match goal with
         | K : (_ <=? _)%N = true |- _ => apply N.leb_le in K
         end.
  change (10 ^ N.of_nat 4)%N with 10000%N.
  change (10 ^ N.of_nat 2)%N with 100%N.
  change (10 ^ N.of_nat 6)%N with 1000000%N.
  lia.
Qed.

Lemma timestamp_fields (d : datetime) :
  valid_datetime d = true -> (1000 <=? year d)%N = true ->
  let s := drop_last 3 (strftime "%Y-%m-%d %H:%M:%S.%f" d) in
  s = (decimal (year d) ++ "-" ++ zfill 2 (decimal (month d)) ++
       "-" ++ zfill 2 (decimal (day d)) ++ " " ++
       zfill 2 (decimal (hour d)) ++ ":" ++ zfill 2 (decimal (minute d)) ++
       ":" ++ zfill 2 (decimal (second d)) ++ "." ++
       substring 0 3 (zfill 6 (decimal (microsecond d))))%string /\
  String.length s = 23%nat /\
  matches "dddd-dd-dd dd:dd:dd.ddd" s = true /\
  get 4 s = Some "-"%char /\ get 7 s = Some "-"%char /\
  get 10 s = Some " "%char /\
  get 13 s = Some ":"%char /\ get 16 s = Some ":"%char /\
  get 19 s = Some "."%char.
Proof.
  intros Hvalid Hyear; rewrite strftime_fields.
  destruct (valid_datetime_bounds d Hvalid) as (HY & Hm & HD & HH & HM & HS & Hf).
  destruct (year_shape _ Hyear HY) as [HYl HYd].
  apply timestamp_shape; solve [assumption | apply field_shape; assumption].
Qed.

Lemma timestamp_length (d : datetime) :
  valid_datetime d = true -> (1000 <=? year d)%N = true ->
  String.length (drop_last 3 (strftime "%Y-%m-%d %H:%M:%S.%f" d)) = 23%nat.
Proof. intros Hvalid Hyear; apply (timestamp_fields d Hvalid Hyear). Qed.

(** C4: whatever valid instant of the year 1000 or later the clock reports,
    [format_time] asks for it in UTC and returns a string of exactly 23
    characters made of the four digits of the year, month, day, hour, minute
    and second on two digits each and the first three digits of the
    microsecond, with [-] at offsets 4 and 7, a space at offset 10, [:] at
    offsets 13 and 16 and [.] at offset 19.  (Before the year 1000 the year
    has fewer digits and the string is shorter.) *)
Theorem format_time_shape (E : Env) (w : World) :
  valid_datetime (env_now E (w_clock w) timezone_utc) = true ->
  (1000 <=? year (env_now E (w_clock w) timezone_utc))%N = true ->
  exists s d,
    res (format_time E w) = Ok s /\
    d = env_now E (w_clock w) timezone_utc /\
    In (Ev (datetime_now timezone_utc) (Returned (VDatetime d)))
       (evs (format_time E w)) /\
    s = (decimal (year d) ++ "-" ++ zfill 2 (decimal (month d)) ++
         "-" ++ zfill 2 (decimal (day d)) ++ " " ++
         zfill 2 (decimal (hour d)) ++ ":" ++ zfill 2 (decimal (minute d)) ++
         ":" ++ zfill 2 (decimal (second d)) ++ "." ++
         substring 0 3 (zfill 6 (decimal (microsecond d))))%string /\
    String.length s = 23%nat /\
    matches "dddd-dd-dd dd:dd:dd.ddd" s = true /\
    get 4 s = Some "-"%char /\ get 7 s = Some "-"%char /\
    get 10 s = Some " "%char /\
    get 13 s = Some ":"%char /\ get 16 s = Some ":"%char /\
    get 19 s = Some "."%char.
Proof.
  intros Hvalid Hyear.
  set (d := env_now E (w_clock w) timezone_utc) in *.
  exists (drop_last 3 (strftime "%Y-%m-%d %H:%M:%S.%f" d)), d.
  split; [|split; [reflexivity|split]].
  - unfold format_time; rewrite bind_res, now_res; reflexivity.
  - unfold format_time; rewrite bind_evs, now_res, now_evs; simpl.
    rewrite app_nil_r; apply in_or_app; right; left; reflexivity.
  - exact (timestamp_fields d Hvalid Hyear).
Qed.

(** ** Centring *)

Section Centring.

Variable E : Env.

Hypothesis no_signal : forall n, env_signal E n = None.
Hypothesis no_fault : forall n, env_fault E n = None.

Lemma calm_extcall {A} c (answer : nat -> A) inj (w : World) :
  extcall E c answer inj w =
  mkOut (Ok (answer (w_clock w))) (tick w)
        [Ev c (Returned (inj (answer (w_clock w))))].
Proof.
  unfold extcall, deliver, bind; rewrite no_signal; simpl.
  rewrite no_fault; reflexivity.
Qed.

Lemma calm_now tz (w : World) :
  now E tz w =
  mkOut (Ok (env_now E (w_clock w) tz)) (tick w)
        [Ev (datetime_now tz) (Returned (VDatetime (env_now E (w_clock w) tz)))].
Proof. unfold now, deliver, bind; rewrite no_signal; reflexivity. Qed.

Lemma bind_calm {A B} (c : M A) (k : A -> M B) (w w' : World) (a : A) (t : trace) :
  c w = mkOut (Ok a) w' t ->
  bind c k w = mkOut (res (k a w')) (post (k a w')) (t ++ evs (k a w')).
Proof. unfold bind; intros ->; reflexivity. Qed.

Lemma calm_format_time (w : World) :
  format_time E w =
  mkOut (Ok (drop_last 3 (strftime "%Y-%m-%d %H:%M:%S.%f"
                                   (env_now E (w_clock w) timezone_utc))))
        (tick w)
        [Ev (datetime_now timezone_utc)
            (Returned (VDatetime (env_now E (w_clock w) timezone_utc)))].
Proof.
  unfold format_time; erewrite bind_calm by apply calm_now; reflexivity.
Qed.

Lemma calm_render (win : window) (w : World) :
  evs (render E win w) =
  let d := env_now E (S (w_clock w)) timezone_utc in
  let ts := drop_last 3 (strftime "%Y-%m-%d %H:%M:%S.%f" d) in
  let hw := env_getmaxyx E (S (S (w_clock w))) in
  [Ev (win_clear win) (Returned VNone);
   Ev (datetime_now timezone_utc) (Returned (VDatetime d));
   Ev (win_getmaxyx win) (Returned (VPair (fst hw) (snd hw)));
   Ev (win_addstr win (fst hw / 2) (Z.max 0 ((snd hw - len ts) / 2)) ts)
      (Returned VNone);
   Ev (win_addstr win (fst hw - 2) 0 "Press 'q' to quit") (Returned VNone);
   Ev (win_refresh win) (Returned VNone)].
Proof.
  unfold render, proc.
  erewrite bind_calm by apply calm_extcall.
  erewrite bind_calm by apply calm_format_time.
  erewrite bind_calm by apply calm_extcall.
  erewrite bind_calm by apply calm_extcall.
  erewrite bind_calm by apply calm_extcall.
  rewrite calm_extcall; reflexivity.
Qed.

(** C7: on a terminal of [rows] by [cols] a frame writes the timestamp [ts]
    at row [rows / 2] and column [max 0 ((cols - len ts) / 2)], both
    quotients rounded down.  From the year 1000 on the timestamp has 23
    characters, so the column is [max 0 ((cols - 23) / 2)]: it is never
    negative, it is 0 on any terminal narrower than 25 columns, and a
    terminal of 24 by 80 gives row 12, column 28.  The instruction line goes
    to row [rows - 2], column 0. *)
Theorem frame_centres_timestamp (w : World) (win : window) (rows cols : Z) :
  (forall n, env_getmaxyx E n = (rows, cols)) ->
  (forall n, is_quit_key (env_getch E n) = false) ->
  (forall n, valid_datetime (env_now E n timezone_utc) = true) ->
  (forall n, (1000 <=? year (env_now E n timezone_utc))%N = true) ->
  stdscr (w_mon w) = Some win ->
  exists key d ts y x,
    evs (frame E w) =
      [Ev (win_getch win) (Returned (VInt key));
       Ev (win_clear win) (Returned VNone);
       Ev (datetime_now timezone_utc) (Returned (VDatetime d));
       Ev (win_getmaxyx win) (Returned (VPair rows cols));
       Ev (win_addstr win y x ts) (Returned VNone);
       Ev (win_addstr win (rows - 2) 0 "Press 'q' to quit") (Returned VNone);
       Ev (win_refresh win) (Returned VNone)] /\
    ts = drop_last 3 (strftime "%Y-%m-%d %H:%M:%S.%f" d) /\
    String.length ts = 23%nat /\
    y = rows / 2 /\ x = Z.max 0 ((cols - len ts) / 2) /\
    x = Z.max 0 ((cols - 23) / 2) /\
    2 * y <= rows <= 2 * y + 1 /\
    0 <= x /\
    (cols <= 24 -> x = 0) /\
    (23 <= cols -> 2 * x <= cols - 23 <= 2 * x + 1) /\
    (rows = 24 -> cols = 80 -> y = 12 /\ x = 28).
Proof.
  intros Hsize Hkey Hvalid Hyear Hwin.
  set (d := env_now E (S (S (w_clock w))) timezone_utc).
  set (ts := drop_last 3 (strftime "%Y-%m-%d %H:%M:%S.%f" d)).
  assert (String.length ts = 23%nat) as Hlen
    by exact (timestamp_length d (Hvalid _) (Hyear _)).
  assert (len ts = 23) as Hlen' by (unfold len; rewrite Hlen; reflexivity).
  exists (env_getch E (w_clock w)), d, ts, (rows / 2), (Z.max 0 ((cols - 23) / 2)).
  split; [|split; [reflexivity|split; [exact Hlen|]]].
  - rewrite (frame_polled E w win Hwin); unfold polled.
    erewrite bind_calm by apply calm_extcall.
    rewrite Hkey, bind_evs, calm_render; cbv zeta.
    rewrite Hsize; simpl fst; simpl snd.
    change (S (w_clock (tick w))) with (S (S (w_clock w))).
    fold d; fold ts; rewrite Hlen'.
    destruct (res (render E win (tick w))); simpl; reflexivity.
  - rewrite Hlen'; repeat split; try lia.
    + pose proof (Z.div_mod rows 2); pose proof (Z.mod_pos_bound rows 2); lia.
    + pose proof (Z.div_mod rows 2); pose proof (Z.mod_pos_bound rows 2); lia.
    + intros Hc.
      assert ((cols - 23) / 2 <= 0); [|lia].
      pose proof (Z.div_mod (cols - 23) 2); pose proof (Z.mod_pos_bound (cols - 23) 2);
        lia.
    + pose proof (Z.div_mod (cols - 23) 2); pose proof (Z.mod_pos_bound (cols - 23) 2);
        lia.
    + pose proof (Z.div_mod (cols - 23) 2); pose proof (Z.mod_pos_bound (cols - 23) 2);
        lia.
    + subst; reflexivity.
    + subst; reflexivity.
Qed.

End Centring.

(** ** Rejecting the interval *)

Lemma then_emit {A} (e : event) (k : M A) (w : World) :
  (emit e ;;; k) w = mkOut (res (k w)) (post (k w)) (e :: evs (k w)).
Proof. reflexivity. Qed.

Lemma then_log {A} (E : Env) l m (k : M A) (w : World) :
  (log E l m ;;; k) w =
  mkOut (res (k (post (deliver E w)))) (post (k (post (deliver E w))))
        (evs (deliver E w) ++ Log l m :: evs (k (post (deliver E w)))).
Proof.
  erewrite bind_ok by apply log_res.
  rewrite log_post, log_evs, <- app_assoc; reflexivity.
Qed.

Lemma deliver_stdscr (E : Env) (w : World) :
  stdscr (w_mon (post (deliver E w))) = stdscr (w_mon w).
Proof.
  unfold deliver; destruct (env_signal E (w_clock w)), (w_handler w); reflexivity.
Qed.

(** C5: for every interval [<= 0] (as floats compare) [main] ends at once by
    [sys.exit(1)], whatever the fuel: it writes the error message to
    standard error, constructs no monitor and makes no external call -- the
    terminal is never initialised.  In a fresh process its events are the
    logging set-up, the start record, the message and the error record. *)
Theorem main_rejects_nonpositive_interval
    (E : Env) (interval : float) (verbose : bool) (fuel : nat) (w : World) :
  PrimFloat.leb interval 0 = true ->
  exists o,
    main E interval verbose fuel w = Some o /\
    res o = Raise (SystemExit 1) /\
    In (EchoErr "Error: Interval must be greater than 0") (evs o) /\
    forallb (fun e => negb (is_call e) && negb (is_construct e)) (evs o) = true /\
    stdscr (w_mon (post o)) = stdscr (w_mon w) /\
    (w_handler w = false ->
     evs o = [BasicConfig (if verbose then DEBUG else INFO) verbose;
              Log INFO (MsgStartCLI interval verbose);
              EchoErr "Error: Interval must be greater than 0";
              Log ERROR (MsgInvalidInterval interval)]).
Proof.
  intros Hle; unfold main; rewrite Hle.
  rewrite then_emit, then_log, then_emit, then_log; cbn [res post evs raise].
  eexists; split; [reflexivity|]; cbn [res post evs].
  split; [reflexivity|]; split; [|split; [|split]].
  - right; apply in_or_app; right; right; left; reflexivity.
  - simpl; rewrite forallb_app; simpl; rewrite forallb_app; simpl.
    rewrite !andb_true_r.
    apply andb_true_iff; split; apply (emits_deliver E); sub_events.
  - rewrite !deliver_stdscr; reflexivity.
  - intros Hh.
    rewrite (deliver_unregistered E w Hh).
    rewrite (deliver_unregistered E (post (deliver E w)))
      by (rewrite deliver_handler; exact Hh).
    reflexivity.
Qed.

(** ** Fuel *)

(** A loop that ends within [fuel] iterations ends the same way with more. *)
Lemma loop_more_fuel (E : Env) (fuel : nat) (w : World) (o : Out unit) :
  loop E fuel w = Some o -> loop E (S fuel) w = Some o.
Proof.
  revert w o; induction fuel as [|f IH]; intros w o; [discriminate|].
  intros H; simpl in H; change (loop E (S (S f)) w) with
    (if running (w_mon w) then
       match res (iteration E w) with
       | Ok Next =>
           match loop E (S f) (post (iteration E w)) with
           | Some o' =>
               Some (mkOut (res o') (post o') (evs (iteration E w) ++ evs o'))
           | None => None
           end
       | Ok Break => Some (mkOut (Ok tt) (post (iteration E w)) (evs (iteration E w)))
       | Raise e => Some (mkOut (Raise e) (post (iteration E w)) (evs (iteration E w)))
       end
     else Some (mkOut (Ok tt) w [])).
  destruct (running (w_mon w)); [|exact H].
  destruct (res (iteration E w)) as [[|]|e]; try exact H.
  destruct (loop E f (post (iteration E w))) as [o'|] eqn:Hl; [|discriminate].
  rewrite (IH _ _ Hl); exact H.
Qed.

Lemma run_more_fuel (E : Env) (fuel : nat) (w : World) (o : Out unit) :
  run E fuel w = Some o -> run E (S fuel) w = Some o.
Proof.
  unfold run, run_try.
  destruct (res (init_curses E (post (run_enter E w)))); [|trivial].
  destruct (loop E fuel (post (init_curses E (post (run_enter E w)))))
    as [ol|] eqn:Hl; [|discriminate].
  rewrite (loop_more_fuel _ _ _ _ Hl); trivial.
Qed.

(** ** The model at concrete runs *)

Example run_quits_at_once :
  option_map evs (run quits_at_once 1 boot) =
  Some (opening ++
        Ev (win_getch (Window 0)) (Returned (VInt ord_q)) ::
        Log INFO MsgUserQuit :: closing).
Proof. reflexivity. Qed.

Example run_terminated :
  option_map evs (run terminated 2 boot) =
  Some (opening ++
        [Ev (win_getch (Window 0)) (Returned (VInt 65));
         Ev (win_clear (Window 0)) (Returned VNone);
         Log INFO (MsgReceivedSignal SIGTERM); SetRunning false;
         Ev (datetime_now timezone_utc) (Returned (VDatetime noon));
         Ev (win_getmaxyx (Window 0)) (Returned (VPair 24 80));
         Ev (win_addstr (Window 0) 12 28 "2024-01-01 12:00:00.000") (Returned VNone);
         Ev (win_addstr (Window 0) 22 0 "Press 'q' to quit") (Returned VNone);
         Ev (win_refresh (Window 0)) (Returned VNone);
         Ev (time_sleep default_interval) (Returned VNone)] ++ closing).
Proof. reflexivity. Qed.

Example run_no_screen :
  option_map (fun o => (res o, evs o)) (run no_screen 0 boot) =
  Some (Raise (RuntimeError "Failed to initialize curses"),
        [Log INFO MsgStartLoop; SetRunning true; Register SIGINT; Register SIGTERM;
         Log DEBUG MsgInitCurses; Ev curses_initscr (Returned (VWindow None));
         SetStdscr None; Log ERROR MsgInitFailed;
         Log ERROR (MsgUnexpected (RuntimeError "Failed to initialize curses"));
         SetRunning false; Log DEBUG MsgCleanup; Log INFO MsgShutdownComplete]).
Proof. reflexivity. Qed.

Example main_quits_at_once :
  option_map (fun o => res o) (main quits_at_once default_interval false 1 boot)
  = Some (Ok tt).
Proof. reflexivity. Qed.

Example main_warns_small_interval :
  option_map (fun o => (res o, firstn 4 (evs o)))
             (main quits_at_once 0x1.0624dd2f1a9fcp-11 true 1 boot) =
  Some (Ok tt,
        [BasicConfig DEBUG true;
         Log INFO (MsgStartCLI 0x1.0624dd2f1a9fcp-11 true);
         EchoErr "Warning: Very small intervals may cause high CPU usage";
         Log WARNING (MsgSmallInterval 0x1.0624dd2f1a9fcp-11)]).
Proof. reflexivity. Qed.

Example main_reports_failure :
  option_map (fun o => (res o, skipn 15 (evs o)))
             (main no_screen default_interval false 0 boot) =
  Some (Raise (SystemExit 1),
        [Log ERROR (MsgFailedToRun (RuntimeError "Failed to initialize curses"));
         EchoErr "Error: Failed to initialize curses"]).
Proof. reflexivity. Qed.

Example strftime_noon :
  drop_last 3 (strftime "%Y-%m-%d %H:%M:%S.%f" (Datetime 2024 12 31 23 59 59 999999))
  = "2024-12-31 23:59:59.999".
Proof. reflexivity. Qed.

(** Before the year 1000 the year takes fewer than four characters. *)
Example strftime_year_999 :
  drop_last 3 (strftime "%Y-%m-%d %H:%M:%S.%f" (Datetime 999 12 31 23 59 59 999999))
  = "999-12-31 23:59:59.999".
Proof. reflexivity. Qed.

Example decimal_examples :
  (decimal 0, decimal 7, decimal 10, decimal 2024, decimal 999999) =
  ("0", "7", "10", "2024", "999999").
Proof. reflexivity. Qed.

(** ** The theorems at concrete runs *)

(** The first [refresh] raises: the tear-down runs once, to its end, and
    the error reaches the caller after the closing record. *)
Lemma run_tears_down_exactly_once_witness :
  exists o,
    run refresh_fails 3 boot = Some o /\
    count is_teardown (evs o) = 1%nat /\
    res o = Raise (curses_error "refresh() returned ERR") /\
    exists tr, evs o = tr ++ [Log INFO MsgShutdownComplete].
Proof.
  destruct (run refresh_fails 3 boot) as [o|] eqn:Hrun;
    [|vm_compute in Hrun; discriminate Hrun].
  destruct (run_try refresh_fails 3 (post (run_enter refresh_fails boot)))
    as [o1|] eqn:Htry; [|vm_compute in Htry; discriminate Htry].
  assert (res o1 = Raise (curses_error "refresh() returned ERR")) as Hres
    by (vm_compute in Htry; injection Htry as <-; reflexivity).
  exists o; split; [reflexivity|].
  destruct (run_tears_down_exactly_once refresh_fails 3 boot o Hrun)
    as (Hcount & _ & Hraise).
  split; [exact Hcount|].
  destruct (Hraise o1 _ Htry Hres eq_refl) as [(_ & Ho & Htr)|(e' & c & tr & _ & Hf & _)].
  - split; assumption.
  - vm_compute in Htry; injection Htry as <-.
    vm_compute in Hf; discriminate Hf.
Defined.

(** Tear-down twice on an opened session of a terminal that never fails. *)
Lemma cleanup_curses_idempotent_witness :
  res (cleanup_curses calm opened) = Ok tt /\
  tty_after (Tty false true true true 0 true)
            (evs (cleanup_curses calm opened) ++
             evs (cleanup_curses calm (post (cleanup_curses calm opened)))) =
  tty_after (Tty false true true true 0 true) (evs (cleanup_curses calm opened)).
Proof.
  split; [reflexivity|].
  exact (proj2 (proj2 (proj2 (cleanup_curses_idempotent calm opened) eq_refl))
               eq_refl (Tty false true true true 0 true)).
Defined.

(** The quit key at the first poll: nothing is ever drawn. *)
Lemma quit_key_stops_before_render_witness :
  exists o,
    run quits_at_once 1 boot = Some o /\
    forallb (fun e => negb (is_render e)) (evs o) = true.
Proof.
  destruct (run quits_at_once 1 boot) as [o|] eqn:Hrun;
    [|vm_compute in Hrun; discriminate Hrun].
  exists o; split; [reflexivity|].
  refine (proj2 (proj2 (quit_key_stops_before_render quits_at_once 1 boot o Hrun))
                opening (Ev (win_getch (Window 0)) (Returned (VInt ord_q)))
                (Log INFO MsgUserQuit :: closing) _ _ _);
    [|reflexivity|reflexivity].
  vm_compute in Hrun; injection Hrun as <-; reflexivity.
Defined.

Lemma format_time_shape_witness :
  exists s,
    res (format_time calm boot) = Ok s /\ String.length s = 23%nat /\
    get 4 s = Some "-"%char /\ get 10 s = Some " "%char /\
    get 13 s = Some ":"%char /\ get 19 s = Some "."%char.
Proof.
  destruct (format_time_shape calm boot eq_refl eq_refl)
    as (s & d & Hs & _ & _ & _ & Hlen & _ & H4 & _ & H10 & H13 & _ & H19).
  exists s; auto 7.
Defined.

(** [--interval 0] *)
Lemma main_rejects_nonpositive_interval_witness :
  exists o,
    main calm 0 false 0 boot = Some o /\
    res o = Raise (SystemExit 1) /\
    evs o = [BasicConfig INFO false; Log INFO (MsgStartCLI 0 false);
             EchoErr "Error: Interval must be greater than 0";
             Log ERROR (MsgInvalidInterval 0)].
Proof.
  destruct (main_rejects_nonpositive_interval calm 0 false 0 boot eq_refl)
    as (o & Hmain & Hres & _ & _ & _ & Hevs).
  exists o; auto.
Defined.

(** [initscr] returns [None]: the error of line 47 reaches the caller. *)
Lemma init_failure_propagates_witness :
  res (init_curses no_screen (post (run_enter no_screen boot))) =
    Raise (RuntimeError "Failed to initialize curses") /\
  exists o,
    run no_screen 0 boot = Some o /\
    forallb (fun x => negb (is_frame_call x)) (evs o) = true /\
    count is_teardown (evs o) = 1%nat.
Proof.
  split; [reflexivity|].
  destruct (init_failure_propagates no_screen 0 boot
              (RuntimeError "Failed to initialize curses") eq_refl eq_refl)
    as (o & Hrun & Hframe & Hcount & _).
  exists o; auto.
Defined.

(** The frame of a terminal of 24 by 80. *)
Lemma frame_centres_timestamp_witness :
  exists key d ts,
    evs (frame calm opened) =
      [Ev (win_getch (Window 0)) (Returned (VInt key));
       Ev (win_clear (Window 0)) (Returned VNone);
       Ev (datetime_now timezone_utc) (Returned (VDatetime d));
       Ev (win_getmaxyx (Window 0)) (Returned (VPair 24 80));
       Ev (win_addstr (Window 0) 12 28 ts) (Returned VNone);
       Ev (win_addstr (Window 0) 22 0 "Press 'q' to quit") (Returned VNone);
       Ev (win_refresh (Window 0)) (Returned VNone)].
Proof.
  destruct (frame_centres_timestamp calm (fun _ => eq_refl) (fun _ => eq_refl)
              opened (Window 0) 24 80
              (fun _ => eq_refl) (fun _ => eq_refl) (fun _ => eq_refl)
              (fun _ => eq_refl) eq_refl)
    as (key & d & ts & y & x & Hevs & _ & _ & -> & _ & -> & _).
  exists key, d, ts; exact Hevs.
Defined.

(** [SIGTERM] during the first frame. *)
Lemma running_is_monotone_witness :
  exists o,
    run terminated 2 boot = Some o /\
    running (w_mon (post o)) = false /\
    exists rest,
      evs o = Log INFO MsgStartLoop :: SetRunning true :: rest /\
      ~ In (SetRunning true) rest.
Proof.
  destruct (run terminated 2 boot) as [o|] eqn:Hrun;
    [|vm_compute in Hrun; discriminate Hrun].
  exists o; split; [reflexivity|].
  destruct (running_is_monotone terminated 2 boot o eq_refl Hrun)
    as (Hrest & _ & Hstop).
  split; [exact Hstop|exact Hrest].
Defined.

Lemma stdscr_none_branch_unreachable_witness :
  exists o,
    run terminated 2 boot = Some o /\
    forallb (fun e => negb (is_stdscr_none e)) (evs o) = true.
Proof.
  destruct (run terminated 2 boot) as [o|] eqn:Hrun;
    [|vm_compute in Hrun; discriminate Hrun].
  exists o; split; [reflexivity|].
  exact (proj1 (stdscr_none_branch_unreachable terminated 2 boot o Hrun)).
Defined.

(** C9 says that the handler does nothing but write the flag.  It does
    more: on [SIGINT] it first hands a record to the logger. *)
Lemma signal_handler_not_only_flag :
  evs (signal_handler SIGINT opened) =
    [Log INFO (MsgReceivedSignal SIGINT); SetRunning false] /\
  evs (signal_handler SIGINT opened) <> [SetRunning false].
Proof. split; [reflexivity|discriminate]. Qed.

(** * Further properties *)

(** ** How [run] ends *)


Section Outcomes.

Variable E : Env.

(** X2: a [KeyboardInterrupt] raised in the [try] block (by the set-up or by
    a frame) does not reach the caller: [run] logs it, tears the session
    down once and, when the [finally] clause returns, returns normally after
    the closing record.  The caller gets an exception only when the
    [finally] clause itself raised: then one of the four curses calls of
    [cleanup_curses] raised, that call is the last event of the run, and
    what it raised is what the caller gets. *)
Theorem run_swallows_keyboard_interrupt
    (fuel : nat) (w : World) (o o1 : Out unit) :
  run E fuel w = Some o ->
  run_try E fuel (post (run_enter E w)) = Some o1 ->
  res o1 = Raise KeyboardInterrupt ->
  In (Log INFO MsgKeyboardInterrupt) (evs o) /\
  count is_teardown (evs o) = 1%nat /\
  ((res (run_finally E (post (run_caught E o1))) = Ok tt /\
    res o = Ok tt /\
    exists tr, evs o = tr ++ [Log INFO MsgShutdownComplete]) \/
   (exists e' c tr,
      is_restore_call c = true /\
      res (run_finally E (post (run_caught E o1))) = Raise e' /\
      res o = Raise e' /\
      evs o = tr ++ [Ev c (Raised e')])).
Proof.
  intros Hrun Htry Hr.
  destruct (run_cases _ _ _ _ Hrun) as (o1' & Htry' & Hevs & _ & Hres).
  rewrite Htry in Htry'; injection Htry' as <-.
  split; [|split].
  - rewrite Hevs; apply in_or_app; right; apply in_or_app; left.
    unfold run_caught; rewrite Hr; simpl.
    apply in_or_app; right; unfold run_except; simpl.
    rewrite log_evs; apply in_or_app; right; left; reflexivity.
  - exact (run_count_teardown _ _ _ _ Hrun).
  - pose proof (run_after_try E fuel w o Hrun o1 Htry) as H.
    rewrite run_caught_res, Hr in H; cbn [is_KeyboardInterrupt] in H; exact H.
Qed.

End Outcomes.

(** ** The terminal settings over a run *)

Section Settings.

Variable E : Env.

Lemma log_tty l m (w : World) (t : tty) : tty_after t (evs (log E l m w)) = t.
Proof.
  apply tty_quiet; rewrite log_evs, forallb_app, (deliver_no_call E w); reflexivity.
Qed.

(** X3: when [init_curses] returns, whatever the settings were before, echo
    is off, cbreak, keypad and no-delay modes are on, the cursor is hidden
    and the screen is in curses mode; the window [initscr] returned is in
    [self.stdscr]. *)
Theorem init_curses_settings (w : World) :
  res (init_curses E w) = Ok tt ->
  (forall t, tty_after t (evs (init_curses E w)) = full_screen) /\
  exists win,
    stdscr (w_mon (post (init_curses E w))) = Some win /\
    In (Ev curses_initscr (Returned (VWindow (Some win)))) (evs (init_curses E w)).
Proof.
  intros Hok; split.
  - intros t; revert Hok; unfold init_curses.
    rewrite bind_res, bind_evs, log_res, tty_after_app, log_tty.
    set (w1 := post (log E DEBUG MsgInitCurses w)).
    rewrite bind_res, bind_evs, extcall_res, extcall_evs.
    destruct (env_fault E (w_clock w1)) as [e0|]; [discriminate|].
    rewrite !tty_after_app, (tty_quiet _ (deliver_no_call E w1)).
    rewrite bind_res, bind_evs.
    change (res (set_stdscr ?s ?x)) with (@Ok unit tt); cbv iota.
    destruct (env_initscr E (w_clock w1)) as [win|];
      [|rewrite bind_res, log_res; discriminate].
    rewrite tty_after_app.
    intros H.
    apply (then_tty E _ _ _ _) in H as [H ->].
    apply (then_tty E _ _ _ _) in H as [H ->].
    apply (then_tty E _ _ _ _) in H as [H ->].
    apply (then_tty E _ _ _ _) in H as [H ->].
    rewrite proc_tty, H; reflexivity.
  - destruct (init_curses_ok E w Hok) as [win Hwin]; exists win; split; [exact Hwin|].
    revert Hok Hwin; unfold init_curses.
    rewrite bind_res, bind_evs, bind_post, log_res.
    set (w1 := post (log E DEBUG MsgInitCurses w)).
    rewrite bind_res, bind_evs, bind_post, extcall_res, extcall_evs.
    destruct (env_fault E (w_clock w1)) as [e0|]; [discriminate|].
    rewrite bind_res, bind_post.
    change (res (set_stdscr ?s ?x)) with (@Ok unit tt); cbv iota.
    destruct (env_initscr E (w_clock w1)) as [win'|];
      [|rewrite bind_res, log_res; discriminate].
    intros _ Hwin.
    assert (win' = win) as ->.
    { match type of Hwin with
      | stdscr (w_mon (post (?c ?x))) = _ =>
          assert (keeps (fun y => stdscr (w_mon y) = Some win') c) as K
            by (unfold proc; repeat first
                  [ apply keeps_extcall; apply stable_stdscr
                  | apply keeps_bind; [|intros ?] ]);
          rewrite (K x eq_refl) in Hwin
      end.
      congruence. }
    apply in_or_app; right; apply in_or_app; left.
    apply in_or_app; right; left; reflexivity.
Qed.







End Settings.

(** ** The interval of the sleeps *)

Lemma no_sleep_sleeps_for (secs : float) (tr : trace) :
  forallb (fun e => negb (is_sleep e)) tr = true -> Forall (sleeps_for secs) tr.
Proof.
  intros H; apply Forall_forall; intros e He s oc ->.
  rewrite forallb_forall in H; specialize (H _ He); discriminate.
Qed.

Section Sleeps.

Variable E : Env.

Lemma stable_interval (secs : float) :
  stable (fun w => update_interval (w_mon w) = secs).
Proof. intros w H n; split; exact H. Qed.

Ltac emits_step :=
  first
    [ apply emits_ret | apply emits_raise | apply emits_get_mon
    | apply emits_log; [sub_events | reflexivity]
    | apply emits_extcall; [sub_events | intros ?; reflexivity]
    | apply emits_now; [sub_events | intros ?; reflexivity]
    | apply emits_emit; reflexivity
    | apply emits_set_running; reflexivity
    | apply emits_set_stdscr; reflexivity
    | apply emits_bind; [|intros ?]
    | match goal with
      | |- emits _ (match ?x with _ => _ end) => destruct x
      end ].

Lemma frame_no_sleep : emits (fun e => negb (is_sleep e)) (frame E).
Proof. unfold frame, render, format_time, proc; repeat emits_step. Qed.

Lemma pause_sleeps (w : World) :
  Forall (sleeps_for (update_interval (w_mon w))) (evs (pause E w)).
Proof.
  change (evs (pause E w))
    with (evs (proc E (time_sleep (update_interval (w_mon w))) w)).
  unfold proc; rewrite extcall_evs; apply Forall_app; split.
  - apply no_sleep_sleeps_for, emits_deliver; sub_events.
  - constructor; [|constructor].
    intros s oc [= -> _]; reflexivity.
Qed.

Lemma iteration_sleeps (w : World) :
  Forall (sleeps_for (update_interval (w_mon w))) (evs (iteration E w)).
Proof.
  unfold iteration; rewrite bind_evs; apply Forall_app; split.
  - apply no_sleep_sleeps_for, frame_no_sleep.
  - destruct (res (frame E w)) as [[|]|e]; try constructor.
    rewrite bind_evs; apply Forall_app; split.
    + pose proof (pause_sleeps (post (frame E w))) as Hp.
      rewrite (keeps_frame E (fun y => update_interval (w_mon y) =
                                       update_interval (w_mon w))
                           (stable_interval _) w eq_refl) in Hp.
      exact Hp.
    + destruct (res (pause E (post (frame E w)))); constructor.
Qed.

Lemma loop_sleeps (fuel : nat) (w : World) (o : Out unit) :
  loop E fuel w = Some o ->
  Forall (sleeps_for (update_interval (w_mon w))) (evs o) /\
  update_interval (w_mon (post o)) = update_interval (w_mon w).
Proof.
  apply (loop_rule E (fun y => update_interval (w_mon y) = update_interval (w_mon w))
                   (Forall (sleeps_for (update_interval (w_mon w)))));
    [constructor| |reflexivity].
  intros w' Hw' _; split.
  - apply (keeps_iteration E _ (stable_interval _) w' Hw').
  - pose proof (iteration_sleeps w') as Hs; rewrite Hw' in Hs.
    destruct (res (iteration E w')) as [[|]|e]; trivial.
    intros tr Htr; apply Forall_app; auto.
Qed.

Lemma run_enter_interval (w : World) :
  update_interval (w_mon (post (run_enter E w))) = update_interval (w_mon w).
Proof.
  unfold run_enter; rewrite bind_post, log_res, log_post.
  unfold deliver; destruct (env_signal E (w_clock w)), (w_handler w); reflexivity.
Qed.

Lemma init_curses_interval (w : World) :
  update_interval (w_mon (post (init_curses E w))) = update_interval (w_mon w).
Proof.
  assert (keeps (fun y => update_interval (w_mon y) = update_interval (w_mon w))
                (init_curses E)) as K; [|exact (K w eq_refl)].
  unfold init_curses, proc.
  repeat first
    [ apply keeps_log; apply stable_interval
    | apply keeps_extcall; apply stable_interval
    | apply keeps_raise
    | apply keeps_bind; [|intros ?]
    | match goal with |- keeps _ (set_stdscr _) => intros ? H; exact H end
    | match goal with |- keeps _ (match ?x with _ => _ end) => destruct x end ].
Qed.

Lemma run_sleeps (fuel : nat) (w : World) (o : Out unit) :
  run E fuel w = Some o ->
  Forall (sleeps_for (update_interval (w_mon w))) (evs o).
Proof.
  intros Hrun.
  destruct (run_cases _ _ _ _ Hrun) as (o1 & Htry & -> & _ & _).
  destruct (run_caught_evs E o1) as (tx & -> & Hx).
  apply Forall_app; split; [|apply Forall_app; split; [apply Forall_app; split|]].
  - apply no_sleep_sleeps_for; eapply forallb_weaken; [|apply emits_run_enter].
    sub_events.
  - destruct (run_try_cases _ _ _ _ Htry)
      as [(e & _ & ->)|(win & ol & _ & _ & Hl & ->)]; simpl.
    + apply no_sleep_sleeps_for; eapply forallb_weaken; [|apply emits_init_curses].
      sub_events.
    + apply Forall_app; split.
      * apply no_sleep_sleeps_for; eapply forallb_weaken; [|apply emits_init_curses].
        sub_events.
      * destruct (loop_sleeps _ _ _ Hl) as [Hs _].
        rewrite init_curses_interval, run_enter_interval in Hs; exact Hs.
  - apply no_sleep_sleeps_for; revert Hx; apply forallb_weaken; sub_events.
  - apply no_sleep_sleeps_for; eapply forallb_weaken; [|apply emits_run_finally].
    sub_events.
Qed.

(** X5: the interval is fixed for the whole run: every [time.sleep] of a run
    is called with the [update_interval] the monitor had when [run] was
    entered. *)
Theorem run_sleeps_update_interval (fuel : nat) (w : World) (o : Out unit) :
  run E fuel w = Some o ->
  Forall (sleeps_for (update_interval (w_mon w))) (evs o).
Proof. exact (run_sleeps fuel w o). Qed.

End Sleeps.

(** ** Stopping *)

Lemma count_le_app (p : event -> bool) (l1 l2 : trace) :
  (count p l2 <= count p (l1 ++ l2))%nat.
Proof. rewrite count_app; lia. Qed.

Lemma stops_soon_few (tr : trace) :
  (count is_poll tr <= 1)%nat -> (count is_sleep tr <= 1)%nat ->
  stops_soon tr = true.
Proof.
  induction tr as [|e t IH]; simpl; intros Hp Hs; [reflexivity|].
  rewrite IH by lia.
  destruct (is_set_false e); [|reflexivity].
  rewrite andb_true_r; apply andb_true_iff; split; apply Nat.leb_le; lia.
Qed.

Lemma stops_soon_prefix (l1 l2 : trace) :
  existsb is_set_false l1 = false -> stops_soon (l1 ++ l2) = stops_soon l2.
Proof.
  induction l1 as [|e t IH]; simpl; intros H; [reflexivity|].
  apply orb_false_iff in H as [He Ht]; rewrite He, (IH Ht); reflexivity.
Qed.

Lemma stops_soon_app_quiet (l1 l2 : trace) :
  stops_soon l1 = true -> stops_soon l2 = true ->
  count is_poll l2 = 0%nat -> count is_sleep l2 = 0%nat ->
  stops_soon (l1 ++ l2) = true.
Proof.
  intros H1 H2 Hp Hs; induction l1 as [|e t IH]; simpl in *; [exact H2|].
  apply andb_true_iff in H1 as [He Ht]; rewrite (IH Ht), andb_true_r.
  destruct (is_set_false e); [|reflexivity].
  rewrite !count_app, Hp, Hs, !Nat.add_0_r; exact He.
Qed.

Lemma stops_soon_split (pre post : trace) (x : event) :
  stops_soon (pre ++ x :: post) = true -> is_set_false x = true ->
  (count is_poll post <= 1)%nat /\ (count is_sleep post <= 1)%nat.
Proof.
  induction pre as [|e t IH]; simpl; intros H Hx.
  - rewrite Hx in H; apply andb_true_iff in H as [H _].
    apply andb_true_iff in H as [Hp Hs]; split; apply Nat.leb_le; assumption.
  - apply andb_true_iff in H as [_ H]; auto.
Qed.

Lemma tracks_ret {A} (a : A) : tracks (ret a).
Proof. intros w; reflexivity. Qed.

Lemma tracks_raise {A} e : tracks (@raise A e).
Proof. intros w; reflexivity. Qed.

Lemma tracks_get_mon : tracks get_mon.
Proof. intros w; reflexivity. Qed.

Lemma tracks_emit e : is_set_false e = false -> tracks (emit e).
Proof. intros H w; simpl; rewrite H; reflexivity. Qed.

Lemma tracks_set_stdscr s : tracks (set_stdscr s).
Proof. intros w; reflexivity. Qed.

Lemma tracks_set_running_false : tracks (set_running false).
Proof. intros w; reflexivity. Qed.

Lemma tracks_bind {A B} (c : M A) (k : A -> M B) :
  tracks c -> (forall a, tracks (k a)) -> tracks (bind c k).
Proof.
  intros Hc Hk w; rewrite bind_post, bind_evs, existsb_app.
  specialize (Hc w); destruct (res (c w)) as [a|e].
  - rewrite (Hk a), Hc.
    destruct (existsb is_set_false (evs (c w))),
             (existsb is_set_false (evs (k a (post (c w))))); reflexivity.
  - simpl; rewrite orb_false_r; exact Hc.
Qed.

Lemma at_most_weaken {A} p (n m : nat) (c : M A) :
  (n <= m)%nat -> at_most p n c -> at_most p m c.
Proof. intros Hnm Hc w; specialize (Hc w); lia. Qed.

Lemma at_most_none {A} p (c : M A) :
  emits (fun e => negb (p e)) c -> at_most p 0 c.
Proof. intros H w; rewrite (count_none p _ (H w)); lia. Qed.

Lemma at_most_bind {A B} p (n m : nat) (c : M A) (k : A -> M B) :
  at_most p n c -> (forall a, at_most p m (k a)) -> at_most p (n + m) (bind c k).
Proof.
  intros Hc Hk w; rewrite bind_evs, count_app.
  specialize (Hc w); destruct (res (c w)) as [a|e].
  - specialize (Hk a (post (c w))); lia.
  - simpl; lia.
Qed.

Section Stopping.

Variable E : Env.

Ltac emits_step :=
  first
    [ apply emits_ret | apply emits_raise | apply emits_get_mon
    | apply emits_log; [sub_events | reflexivity]
    | apply emits_extcall; [sub_events | intros ?; reflexivity]
    | apply emits_now; [sub_events | intros ?; reflexivity]
    | apply emits_emit; reflexivity
    | apply emits_set_running; reflexivity
    | apply emits_set_stdscr; reflexivity
    | apply emits_bind; [|intros ?]
    | match goal with
      | |- emits _ (match ?x with _ => _ end) => destruct x
      end ].

Lemma tracks_deliver : tracks (deliver E).
Proof.
  intros w; unfold deliver.
  destruct (env_signal E (w_clock w)), (w_handler w); reflexivity.
Qed.

Ltac tracks_step :=
  first
    [ apply tracks_deliver | apply tracks_ret | apply tracks_raise
    | apply tracks_get_mon | apply tracks_set_stdscr
    | apply tracks_emit; reflexivity
    | apply tracks_bind; [|intros ?]
    | match goal with
      | |- tracks (match ?x with _ => _ end) => destruct x
      end ].

Lemma tracks_iteration : tracks (iteration E).
Proof.
  unfold iteration, frame, render, format_time, pause, proc, extcall, log, now.
  repeat tracks_step.
Qed.

Lemma tracks_init_curses : tracks (init_curses E).
Proof.
  unfold init_curses, proc, extcall, log.
  repeat tracks_step.
Qed.

Lemma getch_one_poll win :
  at_most is_poll 1 (extcall E (win_getch win) (env_getch E) VInt).
Proof.
  intros w; rewrite extcall_evs, count_app.
  rewrite (count_none is_poll (evs (deliver E w)))
    by (apply emits_deliver; sub_events).
  simpl; lia.
Qed.

Lemma iteration_one_poll : at_most is_poll 1 (iteration E).
Proof.
  unfold iteration, frame.
  apply (at_most_bind is_poll 1 0).
  - apply (at_most_bind is_poll 0 1); [apply at_most_none, emits_get_mon|].
    intros m; destruct (stdscr m) as [win|].
    + apply (at_most_bind is_poll 1 0); [apply getch_one_poll|].
      intros key; apply at_most_none.
      unfold render, format_time, proc; repeat emits_step.
    + apply (at_most_weaken is_poll 0); [lia|].
      apply at_most_none; repeat emits_step.
  - intros fl; apply at_most_none.
    unfold pause, proc; repeat emits_step.
Qed.

Lemma pause_one_sleep : at_most is_sleep 1 (pause E).
Proof.
  intros w.
  change (evs (pause E w))
    with (evs (proc E (time_sleep (update_interval (w_mon w))) w)).
  unfold proc; rewrite extcall_evs, count_app.
  rewrite (count_none is_sleep (evs (deliver E w)))
    by (apply emits_deliver; sub_events).
  simpl; lia.
Qed.

Lemma iteration_one_sleep : at_most is_sleep 1 (iteration E).
Proof.
  unfold iteration.
  apply (at_most_bind is_sleep 0 1); [apply at_most_none, frame_no_sleep|].
  intros [|]; [apply (at_most_weaken is_sleep 0); [lia|apply at_most_none, emits_ret]|].
  apply (at_most_bind is_sleep 1 0); [apply pause_one_sleep|].
  intros _; apply at_most_none, emits_ret.
Qed.

Lemma loop_stopped (fuel : nat) (w : World) (o : Out unit) :
  running (w_mon w) = false -> loop E fuel w = Some o -> evs o = [].
Proof.
  intros Hr; destruct fuel as [|f]; simpl; [discriminate|].
  rewrite Hr; intros [= <-]; reflexivity.
Qed.

Lemma loop_stops_soon (fuel : nat) (w : World) (o : Out unit) :
  loop E fuel w = Some o -> stops_soon (evs o) = true.
Proof.
  revert w o; induction fuel as [|f IH]; intros w o; simpl; [discriminate|].
  destruct (running (w_mon w)) eqn:Hrun; [|intros [= <-]; reflexivity].
  pose proof (stops_soon_few _ (iteration_one_poll w) (iteration_one_sleep w)) as Hit.
  destruct (res (iteration E w)) as [[|]|e].
  - intros [= <-]; exact Hit.
  - destruct (loop E f (post (iteration E w))) as [o'|] eqn:Hl; [|discriminate].
    intros [= <-]; simpl.
    destruct (existsb is_set_false (evs (iteration E w))) eqn:Hs.
    + pose proof (tracks_iteration w) as Ht; rewrite Hs in Ht.
      rewrite (loop_stopped _ _ _ Ht Hl), app_nil_r; exact Hit.
    + rewrite (stops_soon_prefix _ _ Hs); exact (IH _ _ Hl).
  - intros [= <-]; exact Hit.
Qed.

Lemma run_try_stops_soon (fuel : nat) (w : World) (o1 : Out unit) :
  run_try E fuel w = Some o1 -> stops_soon (evs o1) = true.
Proof.
  intros Htry.
  assert (count is_poll (evs (init_curses E w)) = 0%nat) as Hp.
  { apply count_none; eapply forallb_weaken; [|apply emits_init_curses]; sub_events. }
  assert (count is_sleep (evs (init_curses E w)) = 0%nat) as Hs.
  { apply count_none; eapply forallb_weaken; [|apply emits_init_curses]; sub_events. }
  destruct (run_try_cases _ _ _ _ Htry)
    as [(e & _ & ->)|(win & ol & _ & _ & Hl & ->)]; simpl.
  - apply stops_soon_few; lia.
  - destruct (existsb is_set_false (evs (init_curses E w))) eqn:Hf.
    + pose proof (tracks_init_curses w) as Ht; rewrite Hf in Ht.
      rewrite (loop_stopped _ _ _ Ht Hl), app_nil_r.
      apply stops_soon_few; lia.
    + rewrite (stops_soon_prefix _ _ Hf); exact (loop_stops_soon _ _ _ Hl).
Qed.

Lemma run_stops_soon (fuel : nat) (w : World) (o : Out unit) :
  w_handler w = false -> run E fuel w = Some o -> stops_soon (evs o) = true.
Proof.
  intros Hh Hrun.
  destruct (run_cases _ _ _ _ Hrun) as (o1 & Htry & -> & _ & _).
  destruct (run_caught_evs E o1) as (tx & -> & Hx).
  rewrite (run_enter_unregistered E w Hh).
  rewrite stops_soon_prefix by reflexivity.
  assert (forall q, forallb (fun e => negb (is_frame_call e)) q = true ->
                    count is_poll q = 0%nat /\ count is_sleep q = 0%nat) as Hquiet.
  { intros q Hq; split; apply count_none; revert Hq; apply forallb_weaken; sub_events. }
  assert (forallb (fun e => negb (is_frame_call e)) tx = true) as Htx
    by (revert Hx; apply forallb_weaken; sub_events).
  assert (forallb (fun e => negb (is_frame_call e))
                  (evs (run_finally E (post (run_caught E o1)))) = true) as Hfin
    by (eapply forallb_weaken; [|apply emits_run_finally]; sub_events).
  destruct (Hquiet _ Htx) as [Hp1 Hs1]; destruct (Hquiet _ Hfin) as [Hp2 Hs2].
  apply stops_soon_app_quiet; trivial.
  - apply stops_soon_app_quiet; trivial.
    + exact (run_try_stops_soon _ _ _ Htry).
    + apply stops_soon_few; lia.
  - apply stops_soon_few; lia.
Qed.

(** X6: a termination request stops the loop within the iteration it
    arrives in.  In a run on a monitor whose handler is registered by that
    run, after any write of [False] to [self.running] -- by the signal
    handler in particular -- at most one more poll and at most one more
    sleep are made. *)
Theorem signal_stops_within_iteration (fuel : nat) (w : World) (o : Out unit) :
  w_handler w = false ->
  run E fuel w = Some o ->
  forall pre post,
    evs o = pre ++ SetRunning false :: post ->
    (count is_poll post <= 1)%nat /\ (count is_sleep post <= 1)%nat.
Proof.
  intros Hh Hrun pre post Heq.
  pose proof (run_stops_soon fuel w o Hh Hrun) as Hs; rewrite Heq in Hs.
  exact (stops_soon_split _ _ _ Hs eq_refl).
Qed.

End Stopping.

(** ** Termination *)

Lemma advances_bind_l {A B} (c : M A) (k : A -> M B) :
  advances c ->
  (forall a c0, keeps (fun y => (c0 < w_clock y)%nat) (k a)) ->
  advances (bind c k).
Proof.
  intros Hc Hk w; rewrite bind_post; specialize (Hc w).
  destruct (res (c w)) as [a|e]; [|exact Hc].
  exact (Hk a (w_clock w) (post (c w)) Hc).
Qed.

Lemma advances_after_get_mon {B} (k : TimeMonitor -> M B) :
  (forall m, advances (k m)) -> advances (bind get_mon k).
Proof. intros Hk w; exact (Hk (w_mon w) w). Qed.

Section Termination.

Variable E : Env.

Lemma advances_deliver : advances (deliver E).
Proof.
  intros w; unfold deliver.
  destruct (env_signal E (w_clock w)), (w_handler w); simpl; lia.
Qed.

Lemma keeps_clock_deliver (c0 : nat) :
  keeps (fun y => (c0 < w_clock y)%nat) (deliver E).
Proof.
  intros w Hw; unfold deliver.
  destruct (env_signal E (w_clock w)), (w_handler w); simpl; lia.
Qed.

Ltac clock_step c0 :=
  first
    [ apply (keeps_clock_deliver c0) | apply keeps_ret | apply keeps_raise
    | apply keeps_get_mon | apply keeps_emit
    | apply keeps_bind; [|intros ?]
    | match goal with
      | |- keeps _ (match ?x with _ => _ end) => destruct x
      end ].

Lemma advances_extcall {A} c (answer : nat -> A) inj :
  advances (extcall E c answer inj).
Proof.
  unfold extcall; apply advances_bind_l; [apply advances_deliver|].
  intros n c0; destruct (env_fault E n); repeat clock_step c0.
Qed.

Lemma advances_log l m : advances (log E l m).
Proof.
  unfold log; apply advances_bind_l; [apply advances_deliver|].
  intros n c0; apply keeps_emit.
Qed.

Lemma advances_iteration : advances (iteration E).
Proof.
  unfold iteration.
  apply advances_bind_l.
  - unfold frame; apply advances_after_get_mon; intros m.
    destruct (stdscr m) as [win|].
    + apply advances_bind_l; [apply advances_extcall|].
      intros key c0; destruct (is_quit_key key);
        unfold render, format_time, proc, extcall, log, now;
        repeat clock_step c0.
    + apply advances_bind_l; [apply advances_log|].
      intros _ c0; apply keeps_ret.
  - intros fl c0; destruct fl; unfold pause, proc, extcall; repeat clock_step c0.
Qed.

Lemma advances_init_curses : advances (init_curses E).
Proof.
  unfold init_curses; apply advances_bind_l; [apply advances_log|].
  intros _ c0; unfold proc, extcall, log.
  repeat first
    [ clock_step c0
    | match goal with |- keeps _ (set_stdscr _) => intros ? H; exact H end ].
Qed.

(** *** After a signal *)

Section Signal.

Variables (n : nat) (s : termination).
Hypothesis Hsignal : env_signal E n = Some s.

Lemma keeps_awaiting_deliver : keeps (awaiting n) (deliver E).
Proof.
  intros w [Hh [Hc|Hr]]; unfold deliver, awaiting; rewrite Hh.
  - destruct (Nat.eq_dec (w_clock w) n) as [->|Hne].
    + rewrite Hsignal; simpl; auto.
    + destruct (env_signal E (w_clock w)); simpl; split; trivial; left; lia.
  - destruct (env_signal E (w_clock w)); simpl; split; trivial; right;
      solve [reflexivity | exact Hr].
Qed.

Ltac awaiting_step :=
  first
    [ apply keeps_awaiting_deliver | apply keeps_ret | apply keeps_raise
    | apply keeps_get_mon | apply keeps_emit
    | apply keeps_bind; [|intros ?]
    | match goal with |- keeps _ (set_stdscr _) => intros ? H; exact H end
    | match goal with
      | |- keeps _ (match ?x with _ => _ end) => destruct x
      end ].

Lemma keeps_awaiting_iteration : keeps (awaiting n) (iteration E).
Proof.
  unfold iteration, frame, render, format_time, pause, proc, extcall, log, now.
  repeat awaiting_step.
Qed.

Lemma keeps_awaiting_init_curses : keeps (awaiting n) (init_curses E).
Proof.
  unfold init_curses, proc, extcall, log.
  repeat awaiting_step.
Qed.

Lemma loop_ends_after_signal (fuel : nat) (w : World) :
  awaiting n w -> (n < fuel + w_clock w)%nat ->
  exists o, loop E (S fuel) w = Some o.
Proof.
  revert w; induction fuel as [|f IH]; intros w Hw Hlt.
  - destruct Hw as [_ [Hc|Hr]]; [lia|].
    simpl; rewrite Hr; eauto.
  - change (loop E (S (S f)) w) with
      (if running (w_mon w) then
         match res (iteration E w) with
         | Ok Next =>
             match loop E (S f) (post (iteration E w)) with
             | Some o' =>
                 Some (mkOut (res o') (post o') (evs (iteration E w) ++ evs o'))
             | None => None
             end
         | Ok Break =>
             Some (mkOut (Ok tt) (post (iteration E w)) (evs (iteration E w)))
         | Raise e =>
             Some (mkOut (Raise e) (post (iteration E w)) (evs (iteration E w)))
         end
       else Some (mkOut (Ok tt) w [])).
    destruct (running (w_mon w)); [|eauto].
    destruct (res (iteration E w)) as [[|]|e]; eauto.
    destruct (IH (post (iteration E w))) as [o' ->]; eauto.
    + apply keeps_awaiting_iteration, Hw.
    + pose proof (advances_iteration w); lia.
Qed.

Lemma run_enter_awaiting (w : World) :
  (w_clock w < n)%nat -> awaiting n (post (run_enter E w)).
Proof.
  intros Hlt; unfold run_enter; rewrite bind_post, log_res, log_post.
  unfold deliver, awaiting.
  destruct (env_signal E (w_clock w)), (w_handler w); simpl; split; trivial;
    left; lia.
Qed.

(** X7: a termination request ends the run.  If the environment delivers
    [SIGINT] or [SIGTERM] at some call boundary [n] after [run] was entered,
    the run ends within [n + 1] iterations, whatever the keys, the terminal
    and the clock do. *)
Theorem run_ends_after_signal (fuel : nat) (w : World) :
  (w_clock w < n)%nat -> (n < fuel)%nat ->
  exists o, run E fuel w = Some o.
Proof.
  intros Hlt Hfuel; unfold run, run_try.
  pose proof (run_enter_awaiting w Hlt) as Hw.
  destruct (res (init_curses E (post (run_enter E w)))); [|eauto].
  destruct fuel as [|f]; [lia|].
  destruct (loop_ends_after_signal f (post (init_curses E (post (run_enter E w)))))
    as [o ->]; eauto.
  - apply keeps_awaiting_init_curses, Hw.
  - pose proof (advances_init_curses (post (run_enter E w))); lia.
Qed.

End Signal.

(** *** After the quit key *)

Section Quit.

Variable n : nat.
Hypothesis Hquit : forall m, (n <= m)%nat -> is_quit_key (env_getch E m) = true.

Lemma iteration_quits (w : World) :
  (n <= w_clock w)%nat -> res (iteration E w) <> Ok Next.
Proof.
  intros Hle; unfold iteration, frame.
  rewrite bind_res, bind_res; simpl res at 1; cbv iota.
  change (post (get_mon w)) with w.
  destruct (stdscr (w_mon w)) as [win|].
  - rewrite bind_res, extcall_res.
    destruct (env_fault E (w_clock w)); [discriminate|].
    rewrite (Hquit _ Hle), bind_res, log_res; discriminate.
  - rewrite bind_res, log_res; discriminate.
Qed.

Lemma loop_ends_after_quit (fuel : nat) (w : World) :
  (n <= fuel + w_clock w)%nat -> exists o, loop E (S fuel) w = Some o.
Proof.
  revert w; induction fuel as [|f IH]; intros w Hle.
  - simpl; pose proof (iteration_quits w Hle) as Hq.
    destruct (running (w_mon w)); [|eauto].
    destruct (res (iteration E w)) as [[|]|e]; eauto; contradiction.
  - change (loop E (S (S f)) w) with
      (if running (w_mon w) then
         match res (iteration E w) with
         | Ok Next =>
             match loop E (S f) (post (iteration E w)) with
             | Some o' =>
                 Some (mkOut (res o') (post o') (evs (iteration E w) ++ evs o'))
             | None => None
             end
         | Ok Break =>
             Some (mkOut (Ok tt) (post (iteration E w)) (evs (iteration E w)))
         | Raise e =>
             Some (mkOut (Raise e) (post (iteration E w)) (evs (iteration E w)))
         end
       else Some (mkOut (Ok tt) w [])).
    destruct (running (w_mon w)); [|eauto].
    destruct (res (iteration E w)) as [[|]|e]; eauto.
    destruct (IH (post (iteration E w))) as [o' ->]; eauto.
    pose proof (advances_iteration w); lia.
Qed.

(** X8: the quit key ends the run.  If from call boundary [n] on every
    poll finds [q] or [Q], the run ends within [n + 1] iterations. *)
Theorem run_ends_after_quit (fuel : nat) (w : World) :
  (n < fuel)%nat -> exists o, run E fuel w = Some o.
Proof.
  intros Hfuel; unfold run, run_try.
  destruct (res (init_curses E (post (run_enter E w)))); [|eauto].
  destruct fuel as [|f]; [lia|].
  destruct (loop_ends_after_quit f (post (init_curses E (post (run_enter E w)))))
    as [o ->]; eauto.
  lia.
Qed.

End Quit.

End Termination.

(** ** The command *)

Section Command.

Variable E : Env.

Lemma main_failed_res (e : exn) (w : World) :
  res (main_failed E e w) = Raise (SystemExit 1).
Proof. unfold main_failed; rewrite then_log; reflexivity. Qed.

Lemma main_cases (interval : float) (verbose : bool) (fuel : nat)
    (w : World) (o : Out unit) :
  main E interval verbose fuel w = Some o ->
  (exists e, res (main_prelude E interval verbose w) = Raise e /\
             o = main_prelude E interval verbose w) \/
  (exists orun,
     res (main_prelude E interval verbose w) = Ok tt /\
     run E fuel (post (TimeMonitor_init E interval
                         (post (main_prelude E interval verbose w)))) = Some orun /\
     exists tail,
       evs o = evs (main_prelude E interval verbose w) ++
               evs (TimeMonitor_init E interval
                      (post (main_prelude E interval verbose w))) ++
               evs orun ++ tail /\
       match res orun with
       | Ok _ => res o = Ok tt /\ tail = []
       | Raise e =>
           if is_Exception e
           then res o = Raise (SystemExit 1) /\
                tail = evs (main_failed E e (post orun))
           else res o = Raise e /\ tail = []
       end).
Proof.
  unfold main; fold (main_prelude E interval verbose).
  destruct (res (main_prelude E interval verbose w)) as [[]|e] eqn:Hpre.
  - destruct (run E fuel _) as [orun|] eqn:Hrun; [|discriminate].
    intros Ho; right; exists orun; split; [reflexivity|]; split; [reflexivity|].
    destruct (res orun) as [[]|e] eqn:Hr.
    + injection Ho as <-; exists []; simpl; rewrite app_nil_r; auto.
    + destruct (is_Exception e).
      * injection Ho as <-; exists (evs (main_failed E e (post orun))).
        cbn [res evs]; split; [rewrite <- !app_assoc; reflexivity|].
        split; [exact (main_failed_res e (post orun))|reflexivity].
      * injection Ho as <-; exists []; simpl; rewrite app_nil_r; auto.
  - intros [= <-]; left; eauto.
Qed.

Lemma main_prelude_evs (interval : float) (verbose : bool) (w : World) :
  PrimFloat.leb interval 0 = false ->
  res (main_prelude E interval verbose w) = Ok tt /\
  evs (main_prelude E interval verbose w) =
  (BasicConfig (if verbose then DEBUG else INFO) verbose ::
   evs (deliver E w) ++ [Log INFO (MsgStartCLI interval verbose)]) ++
  if PrimFloat.ltb interval small_interval then
    EchoErr "Warning: Very small intervals may cause high CPU usage" ::
    evs (deliver E (post (deliver E w))) ++ [Log WARNING (MsgSmallInterval interval)]
  else [].
Proof.
  intros Hle; unfold main_prelude; rewrite Hle, then_emit, then_log.
  cbn [res evs].
  destruct (PrimFloat.ltb interval small_interval).
  - rewrite then_emit; cbn [res evs]; rewrite log_res, log_evs; split; [reflexivity|].
    simpl; rewrite <- !app_assoc; reflexivity.
  - split; [reflexivity|]; simpl; rewrite app_nil_r; reflexivity.
Qed.

Lemma TimeMonitor_init_evs (interval : float) (w : World) :
  exists w0,
    evs (TimeMonitor_init E interval w) =
      evs (deliver E w0) ++ [Log INFO (MsgInitialized interval)] /\
    w_handler w0 = false /\
    update_interval (w_mon (post (TimeMonitor_init E interval w))) = interval.
Proof.
  eexists; unfold TimeMonitor_init; rewrite log_evs, log_post.
  split; [reflexivity|]; split; [reflexivity|].
  unfold deliver; simpl; destruct (env_signal E (w_clock w)); reflexivity.
Qed.

Lemma run_ok_closed (fuel : nat) (w : World) (o : Out unit) :
  run E fuel w = Some o -> res o = Ok tt ->
  exists tr, evs o = tr ++ [Log INFO MsgShutdownComplete].
Proof.
  intros Hrun Hres.
  destruct (run_cases _ _ _ _ Hrun) as (o1 & _ & -> & _ & Hr).
  rewrite Hres in Hr.
  destruct (res (run_finally E (post (run_caught E o1)))) as [[]|e] eqn:Hf;
    [|discriminate].
  destruct (run_finally_completes _ _ Hf) as [tr ->].
  eexists; rewrite !app_assoc; reflexivity.
Qed.

Lemma deliver_only_handler (w : World) (x : event) :
  In x (evs (deliver E w)) -> handler_event x = true.
Proof.
  intros Hin.
  pose proof (emits_deliver E handler_event (fun e He => He) w) as Hall.
  rewrite forallb_forall in Hall; exact (Hall x Hin).
Qed.

Lemma main_prelude_accepts (interval : float) (verbose : bool) (w : World) :
  In (Log INFO MsgStartLoop) (evs (main_prelude E interval verbose w)) -> False.
Proof.
  intros Hin; unfold main_prelude in Hin.
  rewrite then_emit, then_log in Hin; cbn [evs] in Hin.
  destruct Hin as [Hin|Hin]; [discriminate Hin|].
  apply in_app_or in Hin as [Hin|Hin];
    [apply deliver_only_handler in Hin; discriminate Hin|].
  destruct Hin as [Hin|Hin]; [discriminate Hin|].
  destruct (PrimFloat.leb interval 0).
  - rewrite then_emit, then_log in Hin; cbn [evs raise] in Hin.
    destruct Hin as [Hin|Hin]; [discriminate Hin|].
    apply in_app_or in Hin as [Hin|Hin];
      [apply deliver_only_handler in Hin; discriminate Hin|].
    destruct Hin as [Hin|[]]; discriminate Hin.
  - destruct (PrimFloat.ltb interval small_interval); [|destruct Hin].
    rewrite then_emit in Hin; cbn [evs] in Hin.
    destruct Hin as [Hin|Hin]; [discriminate Hin|].
    rewrite log_evs in Hin.
    apply in_app_or in Hin as [Hin|Hin];
      [apply deliver_only_handler in Hin; discriminate Hin|].
    destruct Hin as [Hin|[]]; discriminate Hin.
Qed.

Lemma run_no_echo (fuel : nat) (w : World) (o : Out unit) :
  run E fuel w = Some o -> forallb (fun e => negb (is_echo e)) (evs o) = true.
Proof.
  intros Hrun.
  destruct (run_cases _ _ _ _ Hrun) as (o1 & Htry & -> & _ & _).
  rewrite app_assoc; apply forallb_app2.
  - generalize (run_before_finally E fuel w o1 Htry); apply forallb_weaken.
    intros e; unfold try_event; event_cases e; simpl; intros He;
      solve [reflexivity | discriminate He].
  - eapply forallb_weaken; [|apply emits_run_finally]; sub_events.
Qed.

Lemma run_starts (fuel : nat) (w : World) (o : Out unit) :
  run E fuel w = Some o -> In (Log INFO MsgStartLoop) (evs o).
Proof.
  intros Hrun.
  destruct (run_cases _ _ _ _ Hrun) as (o1 & _ & -> & _ & _).
  apply in_or_app; left.
  unfold run_enter; rewrite bind_evs, log_evs.
  apply in_or_app; left; apply in_or_app; right; left; reflexivity.
Qed.

(** X10: an interval below 0.001 (and above 0) is not rejected: [main]
    writes the warning to standard error before it constructs the monitor
    and before any external call, then constructs the monitor with that
    interval and enters [run].  For any other positive interval the warning
    is never written. *)
Theorem main_small_interval_warning (interval : float) (verbose : bool)
    (fuel : nat) (w : World) (o : Out unit) :
  PrimFloat.leb interval 0 = false ->
  main E interval verbose fuel w = Some o ->
  if PrimFloat.ltb interval small_interval then
    exists pre post,
      evs o = pre ++
              EchoErr "Warning: Very small intervals may cause high CPU usage" ::
              post /\
      forallb (fun e => negb (is_call e) && negb (is_construct e)) pre = true /\
      In (Log INFO (MsgInitialized interval)) post /\
      In (Log INFO MsgStartLoop) post
  else
    ~ In (EchoErr "Warning: Very small intervals may cause high CPU usage") (evs o).
Proof.
  intros Hle Hmain.
  destruct (main_prelude_evs interval verbose w Hle) as [Hok Hpre].
  destruct (main_cases _ _ _ _ _ Hmain)
    as [(e & Hr & _)|(orun & _ & Hrun & tail & Hevs & Hres)]; [congruence|].
  destruct (TimeMonitor_init_evs interval (post (main_prelude E interval verbose w)))
    as (w0 & Hinit & _ & _).
  rewrite Hpre, Hinit in Hevs.
  destruct (PrimFloat.ltb interval small_interval).
  - exists (BasicConfig (if verbose then DEBUG else INFO) verbose ::
            evs (deliver E w) ++ [Log INFO (MsgStartCLI interval verbose)]),
           ((evs (deliver E (post (deliver E w))) ++
             [Log WARNING (MsgSmallInterval interval)]) ++
            (evs (deliver E w0) ++ [Log INFO (MsgInitialized interval)]) ++
            evs orun ++ tail).
    split;
      [rewrite Hevs; repeat (rewrite <- app_assoc || rewrite <- app_comm_cons);
       reflexivity|].
    split; [|split].
    + simpl; rewrite forallb_app; simpl; rewrite andb_true_r.
      apply (emits_deliver E); sub_events.
    + apply in_or_app; right; apply in_or_app; left.
      apply in_or_app; right; left; reflexivity.
    + apply in_or_app; right; apply in_or_app; right.
      apply in_or_app; left; exact (run_starts _ _ _ Hrun).
  - intros Hin; rewrite Hevs, app_nil_r in Hin.
    assert (forall q, forallb (fun e => negb (is_echo e)) q = true ->
                      ~ In (EchoErr "Warning: Very small intervals may cause high CPU usage") q)
      as Hno.
    { intros q Hq Hi; rewrite forallb_forall in Hq; specialize (Hq _ Hi); discriminate. }
    assert (forall y, forallb (fun e => negb (is_echo e)) (evs (deliver E y)) = true)
      as Hd by (intros y; apply (emits_deliver E); sub_events).
    apply in_app_or in Hin as [Hin|Hin];
      [revert Hin; apply Hno; simpl; rewrite forallb_app, Hd; reflexivity|].
    apply in_app_or in Hin as [Hin|Hin];
      [revert Hin; apply Hno; rewrite forallb_app, Hd; reflexivity|].
    apply in_app_or in Hin as [Hin|Hin];
      [revert Hin; apply Hno, (run_no_echo _ _ _ Hrun)|].
    destruct (res orun) as [[]|e]; [destruct Hres as [_ ->]; contradiction|].
    destruct (is_Exception e); destruct Hres as [_ ->]; [|contradiction].
    unfold main_failed in Hin; rewrite then_log in Hin; cbn [evs] in Hin.
    apply in_app_or in Hin as [Hin|Hin];
      [revert Hin; apply Hno, Hd|].
    destruct Hin as [Hin|[Hin|[]]]; discriminate Hin.
Qed.

(** X11: the interval of the command line is the length of every sleep:
    every [time.sleep] in a run of [main] is called with [interval]. *)
Theorem main_sleeps_interval (interval : float) (verbose : bool) (fuel : nat)
    (w : World) (o : Out unit) :
  main E interval verbose fuel w = Some o ->
  Forall (sleeps_for interval) (evs o).
Proof.
  intros Hmain.
  assert (forall y, forallb (fun e => negb (is_sleep e)) (evs (deliver E y)) = true)
    as Hd by (intros y; apply (emits_deliver E); sub_events).
  destruct (main_cases _ _ _ _ _ Hmain)
    as [(e & Hpre & ->)|(orun & Hpre & Hrun & tail & Hevs & Hres)].
  - apply no_sleep_sleeps_for.
    destruct (PrimFloat.leb interval 0) eqn:Hle.
    + unfold main_prelude; rewrite Hle, then_emit, then_log, then_emit, then_log.
      cbn [evs raise]; simpl; rewrite forallb_app, Hd; simpl.
      rewrite forallb_app, Hd; reflexivity.
    + rewrite (proj1 (main_prelude_evs interval verbose w Hle)) in Hpre.
      discriminate.
  - destruct (PrimFloat.leb interval 0) eqn:Hle.
    { unfold main_prelude in Hpre; rewrite Hle in Hpre.
      rewrite then_emit, then_log, then_emit, then_log in Hpre; discriminate. }
    destruct (main_prelude_evs interval verbose w Hle) as [_ Hp].
    destruct (TimeMonitor_init_evs interval (post (main_prelude E interval verbose w)))
      as (w0 & Hinit & _ & Hiv).
    rewrite Hevs, Hp, Hinit.
    apply Forall_app; split; [|apply Forall_app; split; [|apply Forall_app; split]].
    + apply no_sleep_sleeps_for; apply forallb_app2.
      * simpl; rewrite forallb_app, Hd; reflexivity.
      * destruct (PrimFloat.ltb interval small_interval); [|reflexivity].
        simpl; rewrite forallb_app, Hd; reflexivity.
    + apply no_sleep_sleeps_for; rewrite forallb_app, Hd; reflexivity.
    + rewrite <- Hiv; exact (run_sleeps E _ _ _ Hrun).
    + apply no_sleep_sleeps_for.
      destruct (res orun) as [[]|e]; [destruct Hres as [_ ->]; reflexivity|].
      destruct (is_Exception e); destruct Hres as [_ ->]; [|reflexivity].
      unfold main_failed; rewrite then_log; cbn [evs].
      rewrite forallb_app, Hd; reflexivity.
Qed.

(** X9: the [try] statement of [main] (lines 158-164).  Once [run] has been
    entered, [main] ends as the run ends, except that no [Exception] of the
    run leaves [main].  When the run returns, [main] returns, and the closing
    record of the run is its last event.  When the run raises an [Exception]
    [e], [main] ends by [sys.exit(1)], and its last two events are the error
    record and the message "Error: " followed by [str(e)] on standard error.
    When the run raises anything else, [main] raises the same and writes no
    error message. *)
Theorem main_reports_run_failure (interval : float) (verbose : bool)
    (fuel : nat) (w : World) (o : Out unit) :
  main E interval verbose fuel w = Some o ->
  In (Log INFO MsgStartLoop) (evs o) ->
  exists orun,
    run E fuel (post (TimeMonitor_init E interval
                        (post (main_prelude E interval verbose w)))) = Some orun /\
    match res orun with
    | Ok _ =>
        res o = Ok tt /\
        exists tr, evs o = tr ++ [Log INFO MsgShutdownComplete]
    | Raise e =>
        if is_Exception e then
          res o = Raise (SystemExit 1) /\
          exists tr, evs o = tr ++ [Log ERROR (MsgFailedToRun e);
                                    EchoErr ("Error: " ++ exn_str e)]
        else
          res o = Raise e /\
          forall msg, ~ In (EchoErr ("Error: " ++ msg)) (evs o)
    end.
Proof.
  intros Hmain Hstart.
  destruct (main_cases _ _ _ _ _ Hmain)
    as [(e & Hpre & ->)|(orun & Hpre & Hrun & tail & Hevs & Hres)];
    [destruct (main_prelude_accepts _ _ _ Hstart)|].
  exists orun; split; [exact Hrun|].
  destruct (res orun) as [[]|e] eqn:Hr.
  - destruct Hres as [Hres ->]; split; [exact Hres|].
    destruct (run_ok_closed _ _ _ Hrun Hr) as [tr Htr].
    rewrite Hevs, Htr, app_nil_r; eexists; rewrite !app_assoc; reflexivity.
  - destruct (is_Exception e) eqn:He.
    + destruct Hres as [Hres ->]; split; [exact Hres|].
      rewrite Hevs; unfold main_failed; rewrite then_log; cbn [evs raise].
      eexists.
      change (?l ++ Log ERROR (MsgFailedToRun e) :: [EchoErr ("Error: " ++ exn_str e)])
        with (l ++ [Log ERROR (MsgFailedToRun e); EchoErr ("Error: " ++ exn_str e)]).
      rewrite !app_assoc; reflexivity.
    + destruct Hres as [Hres ->]; split; [exact Hres|].
      intros msg Hin; rewrite Hevs, app_nil_r in Hin.
      assert (forall q, forallb (fun x => negb (is_echo x)) q = true ->
                        ~ In (EchoErr ("Error: " ++ msg)) q) as Hno.
      { intros q Hq Hi; rewrite forallb_forall in Hq; specialize (Hq _ Hi);
          discriminate. }
      assert (forall y, forallb (fun x => negb (is_echo x)) (evs (deliver E y)) = true)
        as Hd by (intros y; apply (emits_deliver E); sub_events).
      apply in_app_or in Hin as [Hin|Hin].
      * destruct (PrimFloat.leb interval 0) eqn:Hle.
        { unfold main_prelude in Hpre; rewrite Hle in Hpre.
          rewrite then_emit, then_log, then_emit, then_log in Hpre; discriminate. }
        rewrite (proj2 (main_prelude_evs interval verbose w Hle)) in Hin.
        apply in_app_or in Hin as [Hin|Hin];
          [revert Hin; apply Hno; simpl; rewrite forallb_app, Hd; reflexivity|].
        destruct (PrimFloat.ltb interval small_interval); [|destruct Hin].
        destruct Hin as [Hin|Hin]; [discriminate Hin|].
        revert Hin; apply Hno; rewrite forallb_app, Hd; reflexivity.
      * apply in_app_or in Hin as [Hin|Hin].
        { destruct (TimeMonitor_init_evs interval
                      (post (main_prelude E interval verbose w)))
            as (w0 & Hinit & _ & _).
          rewrite Hinit in Hin; revert Hin; apply Hno.
          rewrite forallb_app, Hd; reflexivity. }
        revert Hin; apply Hno, (run_no_echo _ _ _ Hrun).
Qed.

End Command.

(** ** Milliseconds *)

Lemma append_assoc (s1 s2 s3 : string) :
  ((s1 ++ s2) ++ s3)%string = (s1 ++ s2 ++ s3)%string.
Proof. induction s1 as [|c s1 IH]; simpl; [reflexivity|rewrite IH; reflexivity]. Qed.

Lemma zeros_snoc (k : nat) : (zeros k ++ "0")%string = zeros (S k).
Proof. induction k as [|k IH]; simpl; [reflexivity|rewrite IH; reflexivity]. Qed.

Lemma substring_prefix (s1 s2 : string) :
  substring 0 (String.length s1) (s1 ++ s2) = s1.
Proof.
  induction s1 as [|c s1 IH]; simpl.
  - destruct s2; reflexivity.
  - rewrite IH; reflexivity.
Qed.

(** Dropping the last digit of a padded numeral divides by ten. *)
Lemma zfill_step (k : nat) (n : N) :
  (1 <= k)%nat ->
  zfill (S k) (decimal n) =
  (zfill k (decimal (n / 10)) ++ String (digit n) "")%string.
Proof.
  intros Hk; destruct (N.ltb_spec n 10) as [Hlt|Hge].
  - rewrite (decimal_small n Hlt), N.div_small by exact Hlt.
    unfold zfill; simpl String.length.
    replace (S k - 1)%nat with k by lia.
    destruct k as [|k]; [lia|].
    replace (S k - 1)%nat with k by lia.
    rewrite <- zeros_snoc, !append_assoc; reflexivity.
  - rewrite (decimal_step n Hge); unfold zfill.
    rewrite length_append; simpl String.length.
    replace (S k - (String.length (decimal (n / 10)) + 1))%nat
      with (k - String.length (decimal (n / 10)))%nat by lia.
    rewrite append_assoc; reflexivity.
Qed.

Lemma milliseconds (us : N) :
  (us < 10 ^ N.of_nat 6)%N ->
  substring 0 3 (zfill 6 (decimal us)) = zfill 3 (decimal (us / 1000)).
Proof.
  intros Hus.
  rewrite (zfill_step 5 us), (zfill_step 4), (zfill_step 3) by lia.
  rewrite !N.Div0.div_div; change (10 * 10 * 10)%N with 1000%N.
  rewrite !append_assoc.
  assert (String.length (zfill 3 (decimal (us / 1000))) = 3%nat) as Hlen.
  { apply (field_shape 2).
    change (10 ^ N.of_nat 3)%N with 1000%N.
    change (10 ^ N.of_nat 6)%N with 1000000%N in Hus.
    apply N.Div0.div_lt_upper_bound; lia. }
  rewrite <- Hlen at 1; apply substring_prefix.
Qed.

(** X12: the milliseconds of the timestamp are the microseconds of the
    instant divided by 1000 and rounded down (999999 microseconds show as
    [.999]), on three digits; the other fields are the fields of the
    instant, for every valid instant of the year 1000 or later. *)
Theorem format_time_truncates (E : Env) (w : World) :
  valid_datetime (env_now E (w_clock w) timezone_utc) = true ->
  (1000 <=? year (env_now E (w_clock w) timezone_utc))%N = true ->
  res (format_time E w) =
  let d := env_now E (w_clock w) timezone_utc in
  Ok (decimal (year d) ++ "-" ++ zfill 2 (decimal (month d)) ++ "-" ++
      zfill 2 (decimal (day d)) ++ " " ++ zfill 2 (decimal (hour d)) ++ ":" ++
      zfill 2 (decimal (minute d)) ++ ":" ++ zfill 2 (decimal (second d)) ++ "." ++
      zfill 3 (decimal (microsecond d / 1000)))%string.
Proof.
  intros Hvalid Hyear; cbv zeta.
  unfold format_time; rewrite bind_res, now_res; cbn [res ret].
  destruct (valid_datetime_bounds _ Hvalid) as (_ & _ & _ & _ & _ & _ & Hf).
  rewrite <- (milliseconds _ Hf).
  f_equal; apply (timestamp_fields _ Hvalid Hyear).
Qed.

(** ** The further properties at concrete runs *)

(** The first poll raises [KeyboardInterrupt]: the run returns. *)
Lemma run_swallows_keyboard_interrupt_witness :
  exists o,
    run interrupted 1 boot = Some o /\
    In (Log INFO MsgKeyboardInterrupt) (evs o) /\
    count is_teardown (evs o) = 1%nat /\
    res o = Ok tt.
Proof.
  destruct (run interrupted 1 boot) as [o|] eqn:Hrun;
    [|vm_compute in Hrun; discriminate Hrun].
  destruct (run_try interrupted 1 (post (run_enter interrupted boot)))
    as [o1|] eqn:Htry; [|vm_compute in Htry; discriminate Htry].
  assert (res o1 = Raise KeyboardInterrupt) as Hres
    by (vm_compute in Htry; injection Htry as <-; reflexivity).
  exists o; split; [reflexivity|].
  destruct (run_swallows_keyboard_interrupt interrupted 1 boot o o1 Hrun Htry Hres)
    as (Hin & Hcount & [(_ & Ho & _)|(e' & c & tr & _ & Hf & _)]).
  - repeat split; assumption.
  - vm_compute in Htry; injection Htry as <-.
    vm_compute in Hf; discriminate Hf.
Defined.

Lemma init_curses_settings_witness :
  tty_after (Tty true false false false 1 false) (evs (init_curses calm boot))
  = full_screen.
Proof.
  exact (proj1 (init_curses_settings calm boot eq_refl)
               (Tty true false false false 1 false)).
Defined.


Lemma run_sleeps_update_interval_witness :
  exists o,
    run terminated 2 boot = Some o /\
    Forall (sleeps_for default_interval) (evs o).
Proof.
  destruct (run terminated 2 boot) as [o|] eqn:Hrun;
    [|vm_compute in Hrun; discriminate Hrun].
  exists o; split; [reflexivity|].
  exact (run_sleeps_update_interval terminated 2 boot o Hrun).
Defined.

Lemma signal_stops_within_iteration_witness :
  (count is_poll after_signal <= 1)%nat /\ (count is_sleep after_signal <= 1)%nat.
Proof.
  destruct (run terminated 2 boot) as [o|] eqn:Hrun;
    [|vm_compute in Hrun; discriminate Hrun].
  refine (signal_stops_within_iteration terminated 2 boot o eq_refl Hrun
            (opening ++
             [Ev (win_getch (Window 0)) (Returned (VInt 65));
              Ev (win_clear (Window 0)) (Returned VNone);
              Log INFO (MsgReceivedSignal SIGTERM)])
            after_signal _).
  vm_compute in Hrun; injection Hrun as <-; reflexivity.
Defined.

Lemma run_ends_after_signal_witness :
  exists o, run interrupted_later 19 boot = Some o.
Proof.
  refine (run_ends_after_signal interrupted_later 18 Interrupt eq_refl 19 boot _ _);
    simpl; lia.
Defined.

Lemma run_ends_after_quit_witness :
  exists o, run quits_at_once 1 boot = Some o.
Proof.
  refine (run_ends_after_quit quits_at_once 0 (fun _ _ => eq_refl) 1 boot _).
  lia.
Defined.

(** [initscr] returns [None]: [main] reports the error and exits with 1. *)
Lemma main_reports_run_failure_witness :
  exists o tr,
    main no_screen default_interval false 0 boot = Some o /\
    res o = Raise (SystemExit 1) /\
    evs o = tr ++ [Log ERROR (MsgFailedToRun init_error);
                   EchoErr "Error: Failed to initialize curses"].
Proof.
  destruct (main no_screen default_interval false 0 boot) as [o|] eqn:Hmain;
    [|vm_compute in Hmain; discriminate Hmain].
  assert (In (Log INFO MsgStartLoop) (evs o)) as Hstart
    by (vm_compute in Hmain; injection Hmain as <-; do 3 right; left; reflexivity).
  destruct (main_reports_run_failure no_screen default_interval false 0 boot o
              Hmain Hstart) as (orun & Hrun & H).
  assert (res orun = Raise init_error) as Hr
    by (vm_compute in Hrun; injection Hrun as <-; reflexivity).
  rewrite Hr in H; destruct H as (Hres & tr & Htr).
  exists o, tr; split; [reflexivity|]; split; assumption.
Defined.

Lemma main_small_interval_warning_witness :
  exists o pre post,
    main quits_at_once half_millisecond false 1 boot = Some o /\
    evs o = pre ++
            EchoErr "Warning: Very small intervals may cause high CPU usage" ::
            post /\
    In (Log INFO (MsgInitialized half_millisecond)) post.
Proof.
  destruct (main quits_at_once half_millisecond false 1 boot) as [o|] eqn:Hmain;
    [|vm_compute in Hmain; discriminate Hmain].
  destruct (main_small_interval_warning quits_at_once half_millisecond false 1 boot o
              eq_refl Hmain) as (pre & post & Hevs & _ & Hin & _).
  exists o, pre, post; auto.
Defined.

Lemma main_sleeps_interval_witness :
  exists o,
    main terminated default_interval false 2 boot = Some o /\
    Forall (sleeps_for default_interval) (evs o).
Proof.
  destruct (main terminated default_interval false 2 boot) as [o|] eqn:Hmain;
    [|vm_compute in Hmain; discriminate Hmain].
  exists o; split; [reflexivity|].
  exact (main_sleeps_interval terminated default_interval false 2 boot o Hmain).
Defined.

Lemma format_time_truncates_witness :
  res (format_time calm_late boot) = Ok "2024-01-01 12:00:00.999".
Proof. exact (format_time_truncates calm_late boot eq_refl eq_refl). Defined.
